(** * Brownian robot: motion engine and statistics

    A shallow embedding of [brownian_motion.py] (class [BrownianRobot]).

    Python floats are read as real numbers ([R]); the two process-wide random
    generators used by the class ([random] and [numpy.random]) become an
    explicit random source that is threaded through every call; a Python call
    either returns a value or raises, which is the [outcome] type. *)

From Stdlib Require Import Reals Lra Lia List Bool Arith.
Import ListNotations.

Open Scope R_scope.

(** ** Python calls: outcomes and the random source *)

Inductive exn : Type :=
| IndexError.

Inductive outcome (A : Type) : Type :=
| Returned (a : A)
| Raised (e : exn).

Arguments Returned {A} a.
Arguments Raised {A} e.

(** [random_draws] lists the successive values of [random.random()] and
    [normal_draws] the successive standard normal variates of numpy's global
    generator; the two cursors count how many of each were consumed. *)
Record RandomSource : Type := mkRandomSource {
  random_draws : nat -> R;
  random_pos : nat;
  normal_draws : nat -> R;
  normal_pos : nat
}.

(** [random.random()] is documented to lie in the half-open unit interval. *)
Definition unit_draws (s : RandomSource) : Prop :=
  forall n, 0 <= random_draws s n < 1.

Definition M (A : Type) : Type := RandomSource -> outcome A * RandomSource.

Class Monad (m : Type -> Type) : Type := {
  ret : forall {A}, A -> m A;
  bind : forall {A B}, m A -> (A -> m B) -> m B
}.

#[global] Instance outcome_monad : Monad outcome := {
  ret := fun A a => Returned a;
  bind := fun A B c k =>
    match c with
    | Returned a => k a
    | Raised e => Raised e
    end
}.

#[global] Instance M_monad : Monad M := {
  ret := fun A a s => (Returned a, s);
  bind := fun A B c k s =>
    match c s with
    | (Returned a, s') => k a s'
    | (Raised e, s') => (Raised e, s')
    end
}.

Notation "x <- c ;; k" := (bind c (fun x => k))
  (at level 61, c at next level, right associativity).

Notation "' pat <- c ;; k" := (bind c (fun x => match x with pat => k end))
  (at level 61, pat pattern, c at next level, right associativity).

(** [random.uniform(a, b)] is [a + (b - a) * random()]. *)
Definition random_uniform (a b : R) : M R :=
  fun s =>
    (Returned (a + (b - a) * random_draws s (random_pos s)),
     mkRandomSource (random_draws s) (S (random_pos s))
                    (normal_draws s) (normal_pos s)).

(** [np.random.normal(loc, scale)] is [loc + scale * z], [z] standard normal. *)
Definition np_random_normal (loc scale : R) : M R :=
  fun s =>
    (Returned (loc + scale * normal_draws s (normal_pos s)),
     mkRandomSource (random_draws s) (random_pos s)
                    (normal_draws s) (S (normal_pos s))).

(** ** Builtins *)

Definition Rle_b (a b : R) : bool := if Rle_dec a b then true else false.
Definition Rge_b (a b : R) : bool := if Rge_dec a b then true else false.

(** Python's [min(a, b)] and [max(a, b)] keep the first argument on a tie. *)
Definition py_min (a b : R) : R := if Rlt_dec b a then b else a.
Definition py_max (a b : R) : R := if Rlt_dec a b then b else a.

(** [np.clip(v, lo, hi)] is [minimum(maximum(v, lo), hi)]. *)
Definition np_clip (v lo hi : R) : R := Rmin (Rmax v lo) hi.

(** [l[i]] for a non-negative index. *)
Definition index {A} (l : list A) (i : nat) : outcome A :=
  match nth_error l i with
  | Some v => Returned v
  | None => Raised IndexError
  end.

(** [sum(f(i) for i in range)], accumulating from the left, starting at 0. *)
Fixpoint sum_from (acc : R) (f : nat -> outcome R) (range : list nat)
  : outcome R :=
  match range with
  | [] => Returned acc
  | i :: rest => v <- f i ;; sum_from (acc + v) f rest
  end.

Definition py_sum (f : nat -> outcome R) (range : list nat) : outcome R :=
  sum_from 0 f range.

(** [sum(1 for i in range if p(i))]. *)
Fixpoint count_from (acc : nat) (p : nat -> outcome bool) (range : list nat)
  : outcome nat :=
  match range with
  | [] => Returned acc
  | i :: rest =>
      b <- p i ;; count_from (if b : bool then S acc else acc) p rest
  end.

Definition py_count (p : nat -> outcome bool) (range : list nat)
  : outcome nat :=
  count_from 0 p range.

(** [range(n)] *)
Definition range (n : nat) : list nat := seq 0 n.

(** [np.mean(l)]: the sum divided by the length.  (numpy answers nan on an
    empty list; the histories of a robot are never empty.) *)
Definition np_mean (l : list R) : R :=
  fold_left Rplus l 0 / INR (length l).

(** ** The robot *)

Record BrownianRobot : Type := mkRobot {
  arena_size : R;
  speed : R;
  dt : R;
  x : R;
  y : R;
  angle : R;
  x_history : list R;
  y_history : list R;
  speed_history : list R
}.

Definition __init__ (arena speed0 dt0 : R) : M BrownianRobot :=
  a <- random_uniform 0 (2 * PI) ;;
  ret {| arena_size := arena;
         speed := speed0;
         dt := dt0;
         x := arena / 2;
         y := arena / 2;
         angle := a;
         x_history := [arena / 2];
         y_history := [arena / 2];
         speed_history := [speed0] |}.

(** The candidate position of a step, given the normal draw [n]. *)
Definition current_speed_of (r : BrownianRobot) (n : R) : R :=
  py_max 0.05 (py_min (speed r * 2) (n * speed r)).

Definition new_x_of (r : BrownianRobot) (n : R) : R :=
  x r + current_speed_of r n * cos (angle r) * dt r.

Definition new_y_of (r : BrownianRobot) (n : R) : R :=
  y r + current_speed_of r n * sin (angle r) * dt r.

(** The test of lines 33 and 36. *)
Definition hits (arena v : R) : bool := Rle_b v 0 || Rge_b v arena.

Definition move (r : BrownianRobot) : M BrownianRobot :=
  n <- np_random_normal 1 0.1 ;;
  let current_speed := current_speed_of r n in
  let new_x := new_x_of r n in
  let new_y := new_y_of r n in
  '(angle1, collision1) <-
     (if hits (arena_size r) new_x
      then a <- random_uniform 0 (2 * PI) ;; ret (a, true)
      else ret (angle r, false)) ;;
  '(angle2, collision2) <-
     (if hits (arena_size r) new_y
      then a <- random_uniform 0 (2 * PI) ;; ret (a, true)
      else ret (angle1, collision1)) ;;
  let x' := if collision2 : bool
            then np_clip new_x 0 (arena_size r) else new_x in
  let y' := if collision2 : bool
            then np_clip new_y 0 (arena_size r) else new_y in
  ret {| arena_size := arena_size r;
         speed := speed r;
         dt := dt r;
         x := x';
         y := y';
         angle := angle2;
         x_history := x_history r ++ [x'];
         y_history := y_history r ++ [y'];
         speed_history := speed_history r ++ [current_speed] |}.

Definition get_position (r : BrownianRobot) : R * R := (x r, y r).

Record Stats : Type := mkStats {
  total_distance : R;
  avg_speed : R;
  collisions : nat
}.

(** The summand of lines 58-59. *)
Definition segment_length (r : BrownianRobot) (i : nat) : outcome R :=
  x1 <- index (x_history r) (i + 1) ;;
  x0 <- index (x_history r) i ;;
  y1 <- index (y_history r) (i + 1) ;;
  y0 <- index (y_history r) i ;;
  ret (sqrt ((x1 - x0) ^ 2 + (y1 - y0) ^ 2)).

(** The filter of lines 66-69; [or] stops at its first true operand. *)
Definition on_boundary (r : BrownianRobot) (i : nat) : outcome bool :=
  xa <- index (x_history r) i ;;
  if Rle_b xa 0 then ret true else
  xb <- index (x_history r) i ;;
  if Rge_b xb (arena_size r) then ret true else
  ya <- index (y_history r) i ;;
  if Rle_b ya 0 then ret true else
  yb <- index (y_history r) i ;;
  ret (Rge_b yb (arena_size r)).

Definition get_stats (r : BrownianRobot) : outcome Stats :=
  d <- py_sum (segment_length r) (range (length (x_history r) - 1)) ;;
  let m := np_mean (speed_history r) in
  c <- py_count (on_boundary r) (range (length (x_history r))) ;;
  ret {| total_distance := d; avg_speed := m; collisions := c |}.

(** The driver: construct, then call [move] [k] times. *)
Fixpoint moves (k : nat) (r : BrownianRobot) : M BrownianRobot :=
  match k with
  | O => ret r
  | S k' => r' <- move r ;; moves k' r'
  end.

Definition drive (arena speed0 dt0 : R) (k : nat) : M BrownianRobot :=
  r <- __init__ arena speed0 dt0 ;; moves k r.

(** ** Reading the definitions *)

(** The value [np.random.normal(1, 0.1)] takes on source [s]. *)
Definition normal_at (s : RandomSource) : R :=
  1 + 0.1 * normal_draws s (normal_pos s).

(** The value [random.uniform(0, 2 * np.pi)] yields from the [i]-th draw. *)
Definition heading_at (s : RandomSource) (i : nat) : R :=
  0 + (2 * PI - 0) * random_draws s i.

(** Number of heading draws a step makes: one for each axis that hits. *)
Definition heading_draws (r : BrownianRobot) (n : R) : nat :=
  ((if hits (arena_size r) (new_x_of r n) then 1 else 0) +
   (if hits (arena_size r) (new_y_of r n) then 1 else 0))%nat.

Definition collided (r : BrownianRobot) (n : R) : bool :=
  hits (arena_size r) (new_x_of r n) || hits (arena_size r) (new_y_of r n).

(** The spec's [position_history]: the two coordinate histories, paired. *)
Definition position_history (r : BrownianRobot) : list (R * R) :=
  combine (x_history r) (y_history r).

(** ** One step, unfolded *)

(** The robot a step leaves behind, as a function of the draws it consumed. *)
Definition moved (r : BrownianRobot) (s : RandomSource) : BrownianRobot :=
  let n := normal_at s in
  let hx := hits (arena_size r) (new_x_of r n) in
  let hy := hits (arena_size r) (new_y_of r n) in
  let x' := if hx || hy
            then np_clip (new_x_of r n) 0 (arena_size r) else new_x_of r n in
  let y' := if hx || hy
            then np_clip (new_y_of r n) 0 (arena_size r) else new_y_of r n in
  {| arena_size := arena_size r;
     speed := speed r;
     dt := dt r;
     x := x';
     y := y';
     angle := if hy
              then heading_at s (random_pos s + (if hx then 1 else 0))
              else if hx then heading_at s (random_pos s) else angle r;
     x_history := x_history r ++ [x'];
     y_history := y_history r ++ [y'];
     speed_history := speed_history r ++ [current_speed_of r n] |}.

Definition after_move (r : BrownianRobot) (s : RandomSource) : RandomSource :=
  mkRandomSource (random_draws s)
                 (random_pos s + heading_draws r (normal_at s))
                 (normal_draws s) (S (normal_pos s)).

(** The robot [__init__] builds, and the source it leaves behind. *)
Definition constructed (arena speed0 dt0 : R) (s : RandomSource)
  : BrownianRobot :=
  {| arena_size := arena;
     speed := speed0;
     dt := dt0;
     x := arena / 2;
     y := arena / 2;
     angle := heading_at s (random_pos s);
     x_history := [arena / 2];
     y_history := [arena / 2];
     speed_history := [speed0] |}.

Definition after_init (s : RandomSource) : RandomSource :=
  mkRandomSource (random_draws s) (S (random_pos s))
                 (normal_draws s) (normal_pos s).

(** [k] steps in a row. *)
Fixpoint moved_n (k : nat) (r : BrownianRobot) (s : RandomSource)
  : BrownianRobot * RandomSource :=
  match k with
  | O => (r, s)
  | S k' => moved_n k' (moved r s) (after_move r s)
  end.

Definition driven (arena speed0 dt0 : R) (k : nat) (s : RandomSource)
  : BrownianRobot * RandomSource :=
  moved_n k (constructed arena speed0 dt0 s) (after_init s).

(** ** The spec's vocabulary *)

Definition in_arena (arena v : R) : Prop := 0 <= v <= arena.

(** Every recorded coordinate lies in the closed arena. *)
Definition contained (r : BrownianRobot) : Prop :=
  Forall (in_arena (arena_size r)) (x_history r) /\
  Forall (in_arena (arena_size r)) (y_history r).

(** The three histories have one length. *)
Definition aligned (r : BrownianRobot) : Prop :=
  length (x_history r) = length (y_history r) /\
  length (speed_history r) = length (x_history r).

Definition Req_b (a b : R) : bool := if Req_dec_T a b then true else false.

(** A position touching the boundary, in the spec's words: its x or its y
    equals exactly 0 or exactly the arena size. *)
Definition touches_boundary (arena : R) (p : R * R) : bool :=
  Req_b (fst p) 0 || Req_b (fst p) arena ||
  Req_b (snd p) 0 || Req_b (snd p) arena.

Definition boundary_touching_count (r : BrownianRobot) : nat :=
  length (filter (touches_boundary (arena_size r)) (position_history r)).

Definition euclidean_distance (p q : R * R) : R :=
  sqrt ((fst q - fst p) ^ 2 + (snd q - snd p) ^ 2).

(** The spec's total distance: the distances between consecutive positions,
    added up. *)
Fixpoint path_length (ps : list (R * R)) : R :=
  match ps with
  | p :: (q :: _) as rest => euclidean_distance p q + path_length rest
  | _ => 0
  end.

(** What the filter of [get_stats] computes at one history entry. *)
Definition outside (arena : R) (p : R * R) : bool :=
  Rle_b (fst p) 0 || Rge_b (fst p) arena ||
  Rle_b (snd p) 0 || Rge_b (snd p) arena.

(** ** Concrete inputs *)

(** A source whose every draw is 0: headings 0, speed multipliers 1. *)
Definition zero_source : RandomSource :=
  mkRandomSource (fun _ => 0) 0 (fun _ => 0) 0.

(** A source whose uniform draws are all 1/8: headings pi/4. *)
Definition diagonal_source : RandomSource :=
  mkRandomSource (fun _ => 1 / 8) 0 (fun _ => 0) 0.

(** The robot of the boundary clamp scenario. *)
Definition edge_robot : BrownianRobot :=
  {| arena_size := 10; speed := 1; dt := 1;
     x := 9.5; y := 5; angle := 0;
     x_history := [9.5]; y_history := [5]; speed_history := [1] |}.

(** ** Further vocabulary *)

(** The current position is the last recorded one, and the histories are
    aligned and not empty. *)
Definition consistent (r : BrownianRobot) : Prop :=
  aligned r /\
  x_history r <> [] /\
  last (x_history r) 0 = x r /\
  last (y_history r) 0 = y r.

(** The farthest a single step can travel: the cap on the realized speed
    times the length of the time step. *)
Definition max_step (r : BrownianRobot) : R :=
  Rmax 0.05 (speed r * 2) * Rabs (dt r).

(** The axis limits [simulate_brownian_motion] gives to the trajectory plot
    (both axes) and to the speed plot (vertical axis). *)
Definition trajectory_axis_limits (r : BrownianRobot) : R * R :=
  (-0.5, arena_size r + 0.5).

Definition speed_axis_limits (r : BrownianRobot) : R * R :=
  (0, speed r * 2.5).

(** A robot whose y history lags behind its x history; no run produces it. *)
Definition lagging_robot : BrownianRobot :=
  {| arena_size := 10; speed := 1; dt := 1;
     x := 6; y := 5; angle := 0;
     x_history := [5; 6]; y_history := [5]; speed_history := [1; 1] |}.

(** A robot built in a degenerate arena. *)
Definition pinned_robot : BrownianRobot :=
  {| arena_size := -2; speed := 1; dt := 1;
     x := -1; y := -1; angle := 0;
     x_history := [-1]; y_history := [-1]; speed_history := [1] |}.

(** * Properties *)

(** ** Comparisons, minimum, maximum, clip *)

Section Builtins.

Lemma Rle_b_true (a b : R) : Rle_b a b = true <-> a <= b.
Proof. unfold Rle_b. destruct (Rle_dec a b); split; intros; easy. Qed.

Lemma Rle_b_false (a b : R) : Rle_b a b = false <-> b < a.
Proof.
  unfold Rle_b. destruct (Rle_dec a b); split; intros; try easy; lra.
Qed.

Lemma Rge_b_true (a b : R) : Rge_b a b = true <-> b <= a.
Proof.
  unfold Rge_b. destruct (Rge_dec a b); split; intros; try easy; lra.
Qed.

Lemma Rge_b_false (a b : R) : Rge_b a b = false <-> a < b.
Proof.
  unfold Rge_b. destruct (Rge_dec a b); split; intros; try easy; lra.
Qed.

Lemma hits_true (arena v : R) : hits arena v = true <-> v <= 0 \/ arena <= v.
Proof.
  unfold hits. rewrite orb_true_iff, Rle_b_true, Rge_b_true. tauto.
Qed.

Lemma hits_false (arena v : R) : hits arena v = false <-> 0 < v < arena.
Proof.
  unfold hits. rewrite orb_false_iff, Rle_b_false, Rge_b_false. tauto.
Qed.

Lemma py_min_Rmin (a b : R) : py_min a b = Rmin a b.
Proof.
  unfold py_min, Rmin. destruct (Rlt_dec b a), (Rle_dec a b); lra.
Qed.

Lemma py_max_Rmax (a b : R) : py_max a b = Rmax a b.
Proof.
  unfold py_max, Rmax. destruct (Rlt_dec a b), (Rle_dec a b); lra.
Qed.

Lemma np_clip_range (v hi : R) : 0 <= hi -> 0 <= np_clip v 0 hi <= hi.
Proof.
  intros Hhi. unfold np_clip, Rmin, Rmax.
  destruct (Rle_dec v 0); destruct (Rle_dec _ hi); lra.
Qed.

Lemma np_clip_above (v hi : R) : 0 <= hi -> hi <= v -> np_clip v 0 hi = hi.
Proof.
  intros Hhi Hv. unfold np_clip, Rmin, Rmax.
  destruct (Rle_dec v 0); destruct (Rle_dec _ hi); lra.
Qed.

Lemma np_clip_inside (v hi : R) : 0 <= v <= hi -> np_clip v 0 hi = v.
Proof.
  intros Hv. unfold np_clip, Rmin, Rmax.
  destruct (Rle_dec v 0); destruct (Rle_dec _ hi); lra.
Qed.

End Builtins.

(** ** The run, unfolded *)

Lemma move_eq (r : BrownianRobot) (s : RandomSource) :
  move r s = (Returned (moved r s), after_move r s).
Proof.
  unfold move, moved, after_move, heading_draws, np_random_normal,
    random_uniform, heading_at, normal_at.
  cbn [bind ret M_monad random_draws random_pos normal_draws normal_pos].
  destruct (hits (arena_size r) (new_x_of r _)) eqn:Hx;
    cbn [bind ret M_monad random_draws random_pos normal_draws normal_pos];
    destruct (hits (arena_size r) (new_y_of r _)) eqn:Hy;
    cbn [bind ret M_monad random_draws random_pos normal_draws normal_pos orb];
    repeat f_equal; lia.
Qed.

Lemma init_eq (arena speed0 dt0 : R) (s : RandomSource) :
  __init__ arena speed0 dt0 s
  = (Returned (constructed arena speed0 dt0 s), after_init s).
Proof. reflexivity. Qed.

Lemma moves_eq (k : nat) :
  forall r s,
    moves k r s = (Returned (fst (moved_n k r s)), snd (moved_n k r s)).
Proof.
  induction k as [|k IH]; intros r s.
  - reflexivity.
  - cbn [moves moved_n bind M_monad]. rewrite move_eq. apply IH.
Qed.

Lemma drive_eq (arena speed0 dt0 : R) (k : nat) (s : RandomSource) :
  drive arena speed0 dt0 k s
  = (Returned (fst (driven arena speed0 dt0 k s)),
     snd (driven arena speed0 dt0 k s)).
Proof.
  unfold drive, driven. cbn [bind M_monad]. rewrite init_eq. apply moves_eq.
Qed.

(** ** Invariants of the run *)

Section Invariants.

Variable P : BrownianRobot -> Prop.
Hypothesis P_moved : forall r s, P r -> P (moved r s).

Lemma moved_n_invariant (k : nat) :
  forall r s, P r -> P (fst (moved_n k r s)).
Proof.
  induction k as [|k IH]; intros r s Hr; cbn [moved_n fst].
  - exact Hr.
  - apply IH, P_moved, Hr.
Qed.

Lemma driven_invariant (arena speed0 dt0 : R) (k : nat) (s : RandomSource) :
  P (constructed arena speed0 dt0 s) ->
  P (fst (driven arena speed0 dt0 k s)).
Proof. unfold driven. apply moved_n_invariant. Qed.

End Invariants.

Lemma aligned_moved (r : BrownianRobot) (s : RandomSource) :
  aligned r -> aligned (moved r s).
Proof.
  unfold aligned, moved. cbn [x_history y_history speed_history].
  rewrite !length_app. cbn [length]. lia.
Qed.

Lemma aligned_driven (arena speed0 dt0 : R) (k : nat) (s : RandomSource) :
  aligned (fst (driven arena speed0 dt0 k s)).
Proof.
  apply driven_invariant.
  - intros r s0. apply aligned_moved.
  - split; reflexivity.
Qed.

Lemma length_moved_n (k : nat) :
  forall r s,
    length (x_history (fst (moved_n k r s))) = (length (x_history r) + k)%nat.
Proof.
  induction k as [|k IH]; intros r s; cbn [moved_n fst].
  - lia.
  - rewrite IH. unfold moved. cbn [x_history]. rewrite length_app.
    cbn [length]. lia.
Qed.

Lemma contained_moved (arena : R) (r : BrownianRobot) (s : RandomSource) :
  0 <= arena ->
  arena_size r = arena /\ contained r ->
  arena_size (moved r s) = arena /\ contained (moved r s).
Proof.
  intros Ha [Hsize [Hx Hy]]. split; [exact Hsize|].
  unfold contained, moved.
  cbn [arena_size x_history y_history].
  set (n := normal_at s).
  destruct (hits (arena_size r) (new_x_of r n)) eqn:Ex;
    destruct (hits (arena_size r) (new_y_of r n)) eqn:Ey;
    cbn [orb]; split; apply Forall_app; split; try assumption;
    (constructor; [unfold in_arena | constructor]);
    try (apply np_clip_range; lra).
  - apply hits_false in Ex. lra.
  - apply hits_false in Ey. lra.
Qed.

(** ** The reductions of [get_stats] *)

Lemma index_nth {A : Type} (l : list A) (i : nat) (d : A) :
  (i < length l)%nat -> index l i = Returned (nth i l d).
Proof.
  intros Hi. unfold index. now rewrite (nth_error_nth' l d Hi).
Qed.

Lemma sum_from_returns (f : nat -> outcome R) (g : nat -> R) (l : list nat) :
  (forall i, In i l -> f i = Returned (g i)) ->
  forall acc, sum_from acc f l = Returned (fold_left Rplus (map g l) acc).
Proof.
  induction l as [|i l IH]; intros Hf acc; cbn [sum_from map fold_left].
  - reflexivity.
  - rewrite (Hf i (or_introl eq_refl)). cbn [bind outcome_monad].
    apply IH. intros j Hj. apply Hf. now right.
Qed.

Lemma count_from_returns (p : nat -> outcome bool) (q : nat -> bool)
      (l : list nat) :
  (forall i, In i l -> p i = Returned (q i)) ->
  forall acc, count_from acc p l = Returned (acc + length (filter q l))%nat.
Proof.
  induction l as [|i l IH]; intros Hp acc; cbn [count_from filter].
  - f_equal. cbn [length]. lia.
  - rewrite (Hp i (or_introl eq_refl)). cbn [bind outcome_monad].
    rewrite IH by (intros j Hj; apply Hp; now right).
    destruct (q i); cbn [length]; f_equal; lia.
Qed.

(** The segment between entries [i] and [i + 1] of a list of positions. *)
Lemma segments_path_length (ps : list (R * R)) (d : R * R) :
  forall acc,
    fold_left Rplus
      (map (fun i => euclidean_distance (nth i ps d) (nth (i + 1) ps d))
           (seq 0 (length ps - 1))) acc
    = acc + path_length ps.
Proof.
  induction ps as [|p ps IH]; intros acc.
  - cbn. lra.
  - destruct ps as [|q ps].
    + cbn. lra.
    + replace (length (p :: q :: ps) - 1)%nat with (S (length (q :: ps) - 1))
        by (cbn [length]; lia).
      cbn [seq map fold_left]. rewrite <- seq_shift, map_map.
      rewrite (map_ext _
                 (fun i => euclidean_distance (nth i (q :: ps) d)
                                              (nth (i + 1) (q :: ps) d)))
        by (intros i; reflexivity).
      rewrite IH. cbn [nth Nat.add path_length]. lra.
Qed.

Lemma positions_count (g : R * R -> bool) (ps : list (R * R)) (d : R * R) :
  length (filter (fun i => g (nth i ps d)) (seq 0 (length ps)))
  = length (filter g ps).
Proof.
  induction ps as [|p ps IH].
  - reflexivity.
  - cbn [length seq filter nth]. rewrite <- seq_shift, filter_map_swap.
    cbn [nth]. destruct (g p); cbn [length]; rewrite length_map, IH;
      reflexivity.
Qed.

Section Stats.

Variable r : BrownianRobot.
Hypothesis Hxy : length (x_history r) = length (y_history r).

Lemma length_position_history :
  length (position_history r) = length (x_history r).
Proof. unfold position_history. rewrite length_combine. lia. Qed.

Lemma nth_position_history (i : nat) :
  nth i (position_history r) (0, 0)
  = (nth i (x_history r) 0, nth i (y_history r) 0).
Proof. unfold position_history. now apply combine_nth. Qed.

Lemma segment_length_eq (i : nat) :
  (i + 1 < length (x_history r))%nat ->
  segment_length r i
  = Returned (euclidean_distance (nth i (position_history r) (0, 0))
                                 (nth (i + 1) (position_history r) (0, 0))).
Proof.
  intros Hi. unfold segment_length.
  rewrite (index_nth (x_history r) (i + 1) 0) by lia.
  rewrite (index_nth (x_history r) i 0) by lia.
  rewrite (index_nth (y_history r) (i + 1) 0) by lia.
  rewrite (index_nth (y_history r) i 0) by lia.
  cbn [bind ret outcome_monad]. rewrite !nth_position_history.
  reflexivity.
Qed.

Lemma on_boundary_eq (i : nat) :
  (i < length (x_history r))%nat ->
  on_boundary r i
  = Returned (outside (arena_size r) (nth i (position_history r) (0, 0))).
Proof.
  intros Hi. unfold on_boundary, outside.
  rewrite (index_nth (x_history r) i 0) by lia.
  rewrite (index_nth (y_history r) i 0) by lia.
  rewrite nth_position_history. cbn [bind ret outcome_monad fst snd].
  destruct (Rle_b (nth i (x_history r) 0) 0); [reflexivity|].
  destruct (Rge_b (nth i (x_history r) 0) (arena_size r)); [reflexivity|].
  destruct (Rle_b (nth i (y_history r) 0) 0); reflexivity.
Qed.

(** On aligned histories [get_stats] returns, and this is what it returns. *)
Lemma get_stats_eq :
  get_stats r
  = Returned {| total_distance := path_length (position_history r);
                avg_speed := np_mean (speed_history r);
                collisions :=
                  length (filter (outside (arena_size r))
                                 (position_history r)) |}.
Proof.
  unfold get_stats, py_sum, py_count, range.
  rewrite (sum_from_returns _
             (fun i => euclidean_distance
                         (nth i (position_history r) (0, 0))
                         (nth (i + 1) (position_history r) (0, 0)))).
  2:{ intros i Hi. apply in_seq in Hi. apply segment_length_eq. lia. }
  rewrite (count_from_returns _
             (fun i => outside (arena_size r)
                         (nth i (position_history r) (0, 0)))).
  2:{ intros i Hi. apply in_seq in Hi. apply on_boundary_eq. lia. }
  cbn [bind ret outcome_monad].
  rewrite <- length_position_history.
  rewrite segments_path_length, positions_count.
  do 2 f_equal. lra.
Qed.

End Stats.

(** ** Containment and the boundary tests *)

Lemma contained_driven (arena speed0 dt0 : R) (k : nat) (s : RandomSource) :
  0 <= arena ->
  arena_size (fst (driven arena speed0 dt0 k s)) = arena /\
  contained (fst (driven arena speed0 dt0 k s)).
Proof.
  intros Ha.
  apply (driven_invariant (fun r => arena_size r = arena /\ contained r)).
  - intros r s0. apply contained_moved. exact Ha.
  - split; [reflexivity|].
    split; cbn [x_history y_history constructed arena_size];
      (constructor; [unfold in_arena; lra | constructor]).
Qed.

Lemma Req_b_true (a b : R) : Req_b a b = true <-> a = b.
Proof. unfold Req_b. destruct (Req_dec_T a b); split; intros; easy. Qed.

(** Inside the closed arena, "at or beyond an edge" is "exactly on an edge". *)
Lemma outside_touches (arena : R) (p : R * R) :
  in_arena arena (fst p) -> in_arena arena (snd p) ->
  outside arena p = touches_boundary arena p.
Proof.
  unfold in_arena, outside, touches_boundary. intros Hx Hy.
  apply eq_true_iff_eq.
  rewrite !orb_true_iff, !Rle_b_true, !Rge_b_true, !Req_b_true. lra.
Qed.

Lemma contained_positions (r : BrownianRobot) :
  contained r ->
  Forall (fun p => in_arena (arena_size r) (fst p) /\
                   in_arena (arena_size r) (snd p)) (position_history r).
Proof.
  intros [Hx Hy]. apply Forall_forall. intros [a b] Hin.
  unfold position_history in Hin. rewrite Forall_forall in Hx, Hy.
  split; cbn [fst snd].
  - apply Hx. eapply in_combine_l, Hin.
  - apply Hy. eapply in_combine_r, Hin.
Qed.

(** What a step commits: the candidate clipped on each axis when it collides
    on either, the candidate itself otherwise, which then lies strictly
    inside the arena. *)
Lemma committed_position (r : BrownianRobot) (s : RandomSource) :
  exists r' s',
    move r s = (Returned r', s') /\
    (collided r (normal_at s) = true ->
     x r' = np_clip (new_x_of r (normal_at s)) 0 (arena_size r) /\
     y r' = np_clip (new_y_of r (normal_at s)) 0 (arena_size r)) /\
    (collided r (normal_at s) = false ->
     x r' = new_x_of r (normal_at s) /\ y r' = new_y_of r (normal_at s) /\
     0 < x r' < arena_size r /\ 0 < y r' < arena_size r).
Proof.
  rewrite move_eq. do 2 eexists. split; [reflexivity|].
  unfold collided, moved. cbn [x y].
  destruct (hits (arena_size r) (new_x_of r (normal_at s))) eqn:Ex;
    destruct (hits (arena_size r) (new_y_of r (normal_at s))) eqn:Ey;
    cbn [orb]; split; intros H; try discriminate;
    repeat split; try reflexivity;
    apply hits_false in Ex; apply hits_false in Ey; lra.
Qed.

(** * The claims *)

(** C1 (boundary containment).  Constructed with a positive arena size and
    stepped any number of times, on any random draws, the run returns a robot
    whose every recorded x and every recorded y lies in [0, arena_size],
    both ends included. *)
Theorem boundary_containment
        (arena speed0 dt0 : R) (k : nat) (s : RandomSource) :
  0 < arena ->
  exists r s',
    drive arena speed0 dt0 k s = (Returned r, s') /\
    arena_size r = arena /\
    Forall (fun v => 0 <= v <= arena) (x_history r) /\
    Forall (fun v => 0 <= v <= arena) (y_history r) /\
    Forall (fun p => 0 <= fst p <= arena /\ 0 <= snd p <= arena)
           (position_history r).
Proof.
  intros Ha. rewrite drive_eq. do 2 eexists. split; [reflexivity|].
  destruct (contained_driven arena speed0 dt0 k s (Rlt_le _ _ Ha))
    as [Hsize Hc].
  pose proof (contained_positions _ Hc) as Hp.
  destruct Hc as [Hx Hy]. rewrite Hsize in Hx, Hy, Hp.
  repeat split; assumption.
Qed.

Lemma boundary_containment_witness :
  0 < 10 /\
  exists r s',
    drive 10 0.1 0.1 3 zero_source = (Returned r, s') /\
    arena_size r = 10 /\
    Forall (fun v => 0 <= v <= 10) (x_history r) /\
    Forall (fun v => 0 <= v <= 10) (y_history r) /\
    Forall (fun p => 0 <= fst p <= 10 /\ 0 <= snd p <= 10)
           (position_history r).
Proof.
  split; [lra|]. apply (boundary_containment 10 0.1 0.1 3 zero_source). lra.
Defined.

(** C3, amended.  For every state reached by construction with an arena
    size that is not negative and any number of steps, [get_stats] returns
    and its [collisions] entry is the number of recorded positions, the
    initial one included, whose x or y equals exactly 0 or exactly the arena
    size: on the recorded positions the code's at-or-beyond test and exact
    equality select the same entries. *)
Theorem collisions_counts_boundary_touching
        (arena speed0 dt0 : R) (k : nat) (s : RandomSource) :
  0 <= arena ->
  exists r s' st,
    drive arena speed0 dt0 k s = (Returned r, s') /\
    get_stats r = Returned st /\
    collisions st = boundary_touching_count r.
Proof.
  intros Ha. rewrite drive_eq. do 3 eexists. split; [reflexivity|].
  destruct (contained_driven arena speed0 dt0 k s Ha) as [_ Hc].
  destruct (aligned_driven arena speed0 dt0 k s) as [Hxy _].
  rewrite (get_stats_eq _ Hxy). split; [reflexivity|].
  cbn [collisions]. unfold boundary_touching_count. f_equal.
  apply filter_ext_in. intros p Hp.
  pose proof (contained_positions _ Hc) as Hall.
  rewrite Forall_forall in Hall. destruct (Hall p Hp).
  now apply outside_touches.
Qed.

(** C6 (history growth and alignment).  After exactly [k] steps following
    construction, the position history has [k + 1] entries and the speed
    history has as many; each single step appends exactly one entry to each
    history and leaves the earlier entries as they were. *)
Theorem history_growth_and_alignment :
  (forall arena speed0 dt0 k s,
     exists r s',
       drive arena speed0 dt0 k s = (Returned r, s') /\
       length (position_history r) = (k + 1)%nat /\
       length (x_history r) = (k + 1)%nat /\
       length (y_history r) = (k + 1)%nat /\
       length (speed_history r) = length (position_history r)) /\
  (forall r s,
     exists r' s' v,
       move r s = (Returned r', s') /\
       x_history r' = x_history r ++ [x r'] /\
       y_history r' = y_history r ++ [y r'] /\
       speed_history r' = speed_history r ++ [v]).
Proof.
  split.
  - intros arena speed0 dt0 k s. rewrite drive_eq. do 2 eexists.
    split; [reflexivity|].
    destruct (aligned_driven arena speed0 dt0 k s) as [Hxy Hs].
    rewrite (length_position_history _ Hxy), Hs, <- Hxy.
    unfold driven. rewrite length_moved_n. cbn [constructed x_history length].
    lia.
  - intros r s. rewrite move_eq. do 3 eexists.
    split; [reflexivity|]. unfold moved.
    cbn [x_history y_history speed_history x y].
    repeat split; reflexivity.
Qed.

(** C7 (total distance).  For every state reached by construction and any
    number of steps, [get_stats] returns and its [total_distance] entry is
    the sum, over the consecutive pairs of recorded positions, of their
    Euclidean distance; it is 0 when the history holds a single position, as
    it does right after construction. *)
Theorem total_distance_is_path_length
        (arena speed0 dt0 : R) (k : nat) (s : RandomSource) :
  exists r s' st,
    drive arena speed0 dt0 k s = (Returned r, s') /\
    get_stats r = Returned st /\
    total_distance st = path_length (position_history r) /\
    (length (position_history r) = 1%nat -> total_distance st = 0) /\
    (k = 0%nat -> length (position_history r) = 1%nat).
Proof.
  rewrite drive_eq. do 3 eexists. split; [reflexivity|].
  destruct (aligned_driven arena speed0 dt0 k s) as [Hxy _].
  rewrite (get_stats_eq _ Hxy). split; [reflexivity|].
  cbn [total_distance]. split; [reflexivity|]. split.
  - destruct (position_history _) as [|p [|q ps]]; cbn [length];
      intros Hlen; try discriminate. reflexivity.
  - intros ->. reflexivity.
Qed.

Lemma np_mean_singleton (v : R) : np_mean [v] = v.
Proof. unfold np_mean. cbn. lra. Qed.

(** C10 (state after construction).  Constructed with a positive arena size
    and a positive base speed, before any step: [get_position] is the arena
    center, the position history holds exactly that position, the speed
    history holds exactly the base speed, and [get_stats] reports the base
    speed as average speed and no collision. *)
Theorem post_construction_state
        (arena speed0 dt0 : R) (s : RandomSource) :
  0 < arena -> 0 < speed0 ->
  exists r s' st,
    __init__ arena speed0 dt0 s = (Returned r, s') /\
    get_position r = (arena / 2, arena / 2) /\
    position_history r = [(arena / 2, arena / 2)] /\
    speed_history r = [speed0] /\
    get_stats r = Returned st /\
    avg_speed st = speed0 /\
    collisions st = 0%nat.
Proof.
  intros Ha Hs. rewrite init_eq. do 3 eexists. split; [reflexivity|].
  rewrite (get_stats_eq (constructed arena speed0 dt0 s) eq_refl).
  repeat (split; [reflexivity|]).
  cbn [avg_speed collisions constructed speed_history arena_size].
  split; [apply np_mean_singleton|].
  unfold position_history. cbn [constructed x_history y_history combine filter].
  replace (outside arena (arena / 2, arena / 2)) with false; [reflexivity|].
  symmetry. unfold outside. cbn [fst snd].
  rewrite !orb_false_iff, !Rle_b_false, !Rge_b_false. lra.
Qed.

Lemma post_construction_state_witness :
  0 < 10 /\ 0 < 0.1 /\
  exists r s' st,
    __init__ 10 0.1 0.1 zero_source = (Returned r, s') /\
    get_position r = (10 / 2, 10 / 2) /\
    position_history r = [(10 / 2, 10 / 2)] /\
    speed_history r = [0.1] /\
    get_stats r = Returned st /\
    avg_speed st = 0.1 /\
    collisions st = 0%nat.
Proof.
  split; [lra|]. split; [lra|].
  apply (post_construction_state 10 0.1 0.1 zero_source); lra.
Defined.

(** ** The boundary clamp scenario *)

Lemma combine_snoc {A B : Type} (l : list A) (l' : list B) (a : A) (b : B) :
  length l = length l' ->
  combine (l ++ [a]) (l' ++ [b]) = combine l l' ++ [(a, b)].
Proof.
  revert l'. induction l as [|h l IH]; intros [|h' l'] Hlen;
    cbn [length] in Hlen; try discriminate.
  - reflexivity.
  - cbn [app combine]. f_equal. apply IH. now injection Hlen.
Qed.

Lemma position_history_moved (r : BrownianRobot) (s : RandomSource) :
  length (x_history r) = length (y_history r) ->
  position_history (moved r s)
  = position_history r ++ [(x (moved r s), y (moved r s))].
Proof.
  intros Hxy. unfold position_history, moved.
  cbn [x_history y_history x y]. now apply combine_snoc.
Qed.

Lemma heading_at_range (s : RandomSource) (i : nat) :
  unit_draws s -> 0 <= heading_at s i < 2 * PI.
Proof.
  intros Hs. unfold heading_at. specialize (Hs i).
  pose proof PI_RGT_0. nra.
Qed.

Lemma unit_draws_zero_source : unit_draws zero_source.
Proof. intros n. cbn. lra. Qed.

Lemma edge_robot_speed : current_speed_of edge_robot (normal_at zero_source) = 1.
Proof.
  unfold current_speed_of, normal_at. rewrite py_max_Rmax, py_min_Rmin.
  cbn [edge_robot speed zero_source normal_draws normal_pos].
  unfold Rmax, Rmin. repeat destruct (Rle_dec _ _); lra.
Qed.

(** C8 (deterministic boundary clamp scenario).  In a state with arena size
    10, time step 1, position (9.5, 5), heading 0, and a draw that makes the
    realized speed exactly 1, one step has candidate position (10.5, 5),
    collides on the x axis only, commits (10, 5), draws one new heading,
    which lies in [0, 2 pi), and the [collisions] statistic after the step is
    at least one more than before (here exactly one more). *)
Theorem boundary_clamp_scenario (r : BrownianRobot) (s : RandomSource) :
  arena_size r = 10 -> dt r = 1 -> x r = 9.5 -> y r = 5 -> angle r = 0 ->
  current_speed_of r (normal_at s) = 1 ->
  unit_draws s ->
  length (x_history r) = length (y_history r) ->
  exists r' s' st st',
    move r s = (Returned r', s') /\
    new_x_of r (normal_at s) = 10.5 /\
    new_y_of r (normal_at s) = 5 /\
    hits (arena_size r) (new_x_of r (normal_at s)) = true /\
    hits (arena_size r) (new_y_of r (normal_at s)) = false /\
    get_position r' = (10, 5) /\
    position_history r' = position_history r ++ [(10, 5)] /\
    random_pos s' = S (random_pos s) /\
    angle r' = heading_at s (random_pos s) /\
    0 <= angle r' < 2 * PI /\
    get_stats r = Returned st /\
    get_stats r' = Returned st' /\
    (collisions st + 1 <= collisions st')%nat /\
    collisions st' = S (collisions st).
Proof.
  intros Harena Hdt Hx Hy Hangle Hspeed Hunit Hxy.
  assert (Hnx : new_x_of r (normal_at s) = 10.5).
  { unfold new_x_of. rewrite Hspeed, Hangle, Hdt, Hx, cos_0. lra. }
  assert (Hny : new_y_of r (normal_at s) = 5).
  { unfold new_y_of. rewrite Hspeed, Hangle, Hdt, Hy, sin_0. lra. }
  assert (Hhx : hits (arena_size r) (new_x_of r (normal_at s)) = true).
  { apply hits_true. rewrite Hnx, Harena. lra. }
  assert (Hhy : hits (arena_size r) (new_y_of r (normal_at s)) = false).
  { apply hits_false. rewrite Hny, Harena. lra. }
  assert (Hpx : x (moved r s) = 10).
  { unfold moved. cbn [x]. rewrite Hhx, Hnx, Harena. cbn [orb].
    apply np_clip_above; lra. }
  assert (Hpy : y (moved r s) = 5).
  { unfold moved. cbn [y]. rewrite Hhx, Hny, Harena. cbn [orb].
    apply np_clip_inside; lra. }
  assert (Hang : angle (moved r s) = heading_at s (random_pos s)).
  { unfold moved. cbn [angle]. rewrite Hhx, Hhy. reflexivity. }
  assert (Hxy' : length (x_history (moved r s))
                 = length (y_history (moved r s))).
  { unfold moved. cbn [x_history y_history]. rewrite !length_app, Hxy.
    reflexivity. }
  assert (Hhist : position_history (moved r s)
                  = position_history r ++ [(10, 5)]).
  { rewrite (position_history_moved r s Hxy), Hpx, Hpy. reflexivity. }
  rewrite move_eq. do 4 eexists. split; [reflexivity|].
  rewrite (get_stats_eq r Hxy), (get_stats_eq _ Hxy').
  repeat (split; [first [assumption | reflexivity]|]).
  split.
  { unfold get_position. now rewrite Hpx, Hpy. }
  split; [assumption|].
  split.
  { unfold after_move, heading_draws. cbn [random_pos].
    rewrite Hhx, Hhy. lia. }
  split; [assumption|].
  split.
  { rewrite Hang. now apply heading_at_range. }
  split; [reflexivity|]. split; [reflexivity|].
  cbn [collisions]. replace (arena_size (moved r s)) with (arena_size r)
    by reflexivity.
  rewrite Hhist, filter_app, length_app. cbn [filter].
  replace (outside (arena_size r) (10, 5)) with true.
  - cbn [length]. lia.
  - symmetry. unfold outside. cbn [fst snd]. rewrite !orb_true_iff.
    left. left. right. apply Rge_b_true. lra.
Qed.

Lemma boundary_clamp_scenario_witness :
  exists r' s' st st',
    move edge_robot zero_source = (Returned r', s') /\
    new_x_of edge_robot (normal_at zero_source) = 10.5 /\
    new_y_of edge_robot (normal_at zero_source) = 5 /\
    hits (arena_size edge_robot)
         (new_x_of edge_robot (normal_at zero_source)) = true /\
    hits (arena_size edge_robot)
         (new_y_of edge_robot (normal_at zero_source)) = false /\
    get_position r' = (10, 5) /\
    position_history r' = position_history edge_robot ++ [(10, 5)] /\
    random_pos s' = S (random_pos zero_source) /\
    angle r' = heading_at zero_source (random_pos zero_source) /\
    0 <= angle r' < 2 * PI /\
    get_stats edge_robot = Returned st /\
    get_stats r' = Returned st' /\
    (collisions st + 1 <= collisions st')%nat /\
    collisions st' = S (collisions st).
Proof.
  apply (boundary_clamp_scenario edge_robot zero_source);
    try reflexivity.
  - exact edge_robot_speed.
  - exact unit_draws_zero_source.
Defined.

(** ** Realized speed *)

Lemma current_speed_of_range (r : BrownianRobot) (n : R) :
  0.05 <= current_speed_of r n <= Rmax 0.05 (speed r * 2).
Proof.
  unfold current_speed_of. rewrite py_max_Rmax, py_min_Rmin.
  unfold Rmax, Rmin. repeat destruct (Rle_dec _ _); lra.
Qed.

(** Below a base speed of 0.025 the floor of 0.05 wins over the cap. *)
Lemma current_speed_of_floor (r : BrownianRobot) (n : R) :
  speed r * 2 <= 0.05 -> current_speed_of r n = 0.05.
Proof.
  intros Hs. unfold current_speed_of. rewrite py_max_Rmax, py_min_Rmin.
  unfold Rmax, Rmin. repeat destruct (Rle_dec _ _); lra.
Qed.

Lemma speed_range_moved (speed0 : R) (r : BrownianRobot) (s : RandomSource) :
  0.05 <= speed0 ->
  speed r = speed0 /\
  Forall (fun v => 0.05 <= v <= 2 * speed0) (speed_history r) ->
  speed (moved r s) = speed0 /\
  Forall (fun v => 0.05 <= v <= 2 * speed0) (speed_history (moved r s)).
Proof.
  intros Hs [Hspeed Hall]. split; [exact Hspeed|].
  unfold moved. cbn [speed_history]. apply Forall_app. split; [exact Hall|].
  constructor; [|constructor].
  pose proof (current_speed_of_range r (normal_at s)) as Hr.
  rewrite Hspeed in Hr. unfold Rmax in Hr.
  destruct (Rle_dec 0.05 (speed0 * 2)); lra.
Qed.

(** C2, as stated, fails: built with base speed 0.01 and stepped once, the
    speed history is [0.01; 0.05]; the seeded entry is below 0.05 and the
    realized speed 0.05 is above 2 * 0.01. *)
Lemma small_base_speed_breaks_range :
  0 < 0.01 /\
  exists r s',
    drive 10 0.01 0.1 1 zero_source = (Returned r, s') /\
    speed_history r = [0.01; 0.05] /\
    ~ Forall (fun v => 0.05 <= v <= 2 * 0.01) (speed_history r).
Proof.
  split; [lra|]. rewrite drive_eq. do 2 eexists. split; [reflexivity|].
  assert (Hh : speed_history (fst (driven 10 0.01 0.1 1 zero_source))
               = [0.01; 0.05]).
  { unfold driven. cbn [moved_n fst]. unfold moved.
    cbn [speed_history constructed app]. do 2 f_equal.
    apply current_speed_of_floor. cbn [speed constructed]. lra. }
  split; [exact Hh|]. rewrite Hh. intros Hall.
  apply Forall_inv in Hall. lra.
Qed.

(** C2, amended.  For every construction with base speed at least 0.05 and
    every sequence of steps, the run returns and every entry of the speed
    history, the seeded one included, lies in [0.05, 2 * base speed]. *)
Theorem speed_history_within_bounds (arena speed0 dt0 : R) (k : nat) (s : RandomSource) :
  0.05 <= speed0 ->
  exists r s',
    drive arena speed0 dt0 k s = (Returned r, s') /\
    Forall (fun v => 0.05 <= v <= 2 * speed0) (speed_history r).
Proof.
  intros Hs. rewrite drive_eq. do 2 eexists. split; [reflexivity|].
  apply (driven_invariant
           (fun r => speed r = speed0 /\
                     Forall (fun v => 0.05 <= v <= 2 * speed0)
                            (speed_history r))).
  - intros r s0. now apply speed_range_moved.
  - split; [reflexivity|]. cbn [constructed speed_history].
    constructor; [lra|constructor].
Qed.

Lemma speed_history_within_bounds_witness :
  0.05 <= 0.1 /\
  exists r s',
    drive 10 0.1 0.1 3 zero_source = (Returned r, s') /\
    Forall (fun v => 0.05 <= v <= 2 * 0.1) (speed_history r).
Proof.
  split; [lra|]. apply (speed_history_within_bounds 10 0.1 0.1 3 zero_source). lra.
Defined.

(** The entries appended by steps are bounded for every base speed: at least
    0.05, and at most the larger of 0.05 and twice the base speed. *)
Lemma realized_speed_range (r : BrownianRobot) (s : RandomSource) :
  exists v,
    speed_history (moved r s) = speed_history r ++ [v] /\
    0.05 <= v <= Rmax 0.05 (2 * speed r).
Proof.
  exists (current_speed_of r (normal_at s)). split; [reflexivity|].
  rewrite (Rmult_comm 2). apply current_speed_of_range.
Qed.

(** ** Heading draws *)

Lemma collided_true (r : BrownianRobot) (n : R) :
  collided r n = true <->
  new_x_of r n <= 0 \/ arena_size r <= new_x_of r n \/
  new_y_of r n <= 0 \/ arena_size r <= new_y_of r n.
Proof. unfold collided. rewrite orb_true_iff, !hits_true. tauto. Qed.

Lemma unit_speed (r : BrownianRobot) (s : RandomSource) :
  speed r = 1 -> normal_draws s (normal_pos s) = 0 ->
  current_speed_of r (normal_at s) = 1.
Proof.
  intros Hs Hn. unfold current_speed_of, normal_at.
  rewrite py_max_Rmax, py_min_Rmin, Hs, Hn.
  unfold Rmax, Rmin. repeat destruct (Rle_dec _ _); lra.
Qed.

Lemma inv_sqrt2_lower : / 2 <= 1 / sqrt 2.
Proof.
  assert (Hpos : 0 < sqrt 2) by (apply sqrt_lt_R0; lra).
  assert (Hle : sqrt 2 <= 2).
  { rewrite <- (sqrt_square 2) at 2 by lra. apply sqrt_le_1_alt. lra. }
  unfold Rdiv. rewrite Rmult_1_l. now apply Rinv_le_contravar.
Qed.

(** C4, as stated, fails in its "only if" half: built in an arena of size 1
    with base speed 1 and time step 1 on draws that are all 0, the first step
    has candidate x = 1.5, a collision, and the heading drawn for it is 0,
    the heading the robot already had. *)
Lemma heading_kept_despite_collision :
  exists r s1 r' s2,
    __init__ 1 1 1 zero_source = (Returned r, s1) /\
    move r s1 = (Returned r', s2) /\
    arena_size r = 1 /\
    new_x_of r (normal_at s1) = 1.5 /\
    collided r (normal_at s1) = true /\
    angle r' = angle r /\
    ~ (angle r' = angle r <-> collided r (normal_at s1) = false).
Proof.
  rewrite init_eq. do 2 eexists. rewrite move_eq. do 2 eexists.
  split; [reflexivity|]. split; [reflexivity|]. split; [reflexivity|].
  set (r := constructed 1 1 1 zero_source).
  set (s1 := after_init zero_source).
  assert (Ha : angle r = 0).
  { cbn [r constructed angle]. unfold heading_at. cbn. lra. }
  assert (Hv : current_speed_of r (normal_at s1) = 1)
    by (apply unit_speed; reflexivity).
  assert (Hx : new_x_of r (normal_at s1) = 1.5).
  { unfold new_x_of. rewrite Hv, Ha, cos_0. cbn [r constructed x dt]. lra. }
  assert (Hy : new_y_of r (normal_at s1) = 0.5).
  { unfold new_y_of. rewrite Hv, Ha, sin_0. cbn [r constructed y dt]. lra. }
  assert (Hhx : hits (arena_size r) (new_x_of r (normal_at s1)) = true).
  { apply hits_true. rewrite Hx. cbn [r constructed arena_size]. lra. }
  assert (Hhy : hits (arena_size r) (new_y_of r (normal_at s1)) = false).
  { apply hits_false. rewrite Hy. cbn [r constructed arena_size]. lra. }
  assert (Hc : collided r (normal_at s1) = true).
  { unfold collided. now rewrite Hhx. }
  assert (Hsame : angle (moved r s1) = angle r).
  { unfold moved. cbn [angle]. rewrite Hhx, Hhy, Ha.
    unfold heading_at. cbn. lra. }
  repeat split; try assumption.
  intros [Hiff _]. specialize (Hiff Hsame). congruence.
Qed.

(** C4, amended.  A step's candidate position collides exactly when one of
    its coordinates is at most 0 or at least the arena size (a coordinate
    exactly 0 or exactly the arena size counts).  Without a collision the
    heading after the step is the heading before it and no heading is drawn.
    With a collision the heading after the step is a freshly drawn value of
    [random.uniform(0, 2 pi)], the last one the step drew; nothing prevents
    that value from equalling the old heading. *)
Theorem heading_redrawn_exactly_on_collision
        (r : BrownianRobot) (s : RandomSource) :
  exists r' s',
    move r s = (Returned r', s') /\
    (collided r (normal_at s) = true <->
     new_x_of r (normal_at s) <= 0 \/
     arena_size r <= new_x_of r (normal_at s) \/
     new_y_of r (normal_at s) <= 0 \/
     arena_size r <= new_y_of r (normal_at s)) /\
    (collided r (normal_at s) = false ->
     angle r' = angle r /\ random_pos s' = random_pos s) /\
    (collided r (normal_at s) = true ->
     (random_pos s < random_pos s')%nat /\
     angle r' = heading_at s (random_pos s' - 1)).
Proof.
  rewrite move_eq. do 2 eexists. split; [reflexivity|].
  split; [apply collided_true|].
  unfold collided, moved, after_move, heading_draws.
  cbn [angle random_pos].
  destruct (hits (arena_size r) (new_x_of r (normal_at s)));
    destruct (hits (arena_size r) (new_y_of r (normal_at s)));
    cbn [orb]; split; intros H; try discriminate;
    split; try reflexivity; try lia; f_equal; lia.
Qed.

(** C5, as stated, fails: built in an arena of size 1 with base speed 1 and
    time step 1 on uniform draws that are all 1/8 (heading pi/4), the first
    step has a candidate that collides on both axes, and the step consumes
    two heading draws, one for each axis. *)
Lemma double_collision_draws_twice :
  exists r s1 r' s2,
    __init__ 1 1 1 diagonal_source = (Returned r, s1) /\
    move r s1 = (Returned r', s2) /\
    hits (arena_size r) (new_x_of r (normal_at s1)) = true /\
    hits (arena_size r) (new_y_of r (normal_at s1)) = true /\
    random_pos s2 = (random_pos s1 + 2)%nat /\
    random_pos s2 <> (random_pos s1 + 1)%nat.
Proof.
  rewrite init_eq. do 2 eexists. rewrite move_eq. do 2 eexists.
  split; [reflexivity|]. split; [reflexivity|].
  set (r := constructed 1 1 1 diagonal_source).
  set (s1 := after_init diagonal_source).
  assert (Ha : angle r = PI / 4).
  { cbn [r constructed angle]. unfold heading_at. cbn. lra. }
  assert (Hv : current_speed_of r (normal_at s1) = 1)
    by (apply unit_speed; reflexivity).
  pose proof inv_sqrt2_lower as Hq.
  assert (Hhx : hits (arena_size r) (new_x_of r (normal_at s1)) = true).
  { apply hits_true. right. unfold new_x_of.
    rewrite Hv, Ha, cos_PI4. cbn [r constructed arena_size x dt]. lra. }
  assert (Hhy : hits (arena_size r) (new_y_of r (normal_at s1)) = true).
  { apply hits_true. right. unfold new_y_of.
    rewrite Hv, Ha, sin_PI4. cbn [r constructed arena_size y dt]. lra. }
  split; [exact Hhx|]. split; [exact Hhy|].
  unfold after_move, heading_draws. cbn [random_pos]. rewrite Hhx, Hhy.
  split; lia.
Qed.

(** C5, amended.  A step draws one heading for each axis on which the
    candidate position collides, from the same random source and in the
    order x, y: two draws when both axes collide (the second is the heading
    kept), one draw when exactly one axis collides, none otherwise. *)
Theorem one_heading_draw_per_colliding_axis
        (r : BrownianRobot) (s : RandomSource) :
  exists r' s',
    move r s = (Returned r', s') /\
    random_draws s' = random_draws s /\
    match hits (arena_size r) (new_x_of r (normal_at s)),
          hits (arena_size r) (new_y_of r (normal_at s)) with
    | true, true =>
        random_pos s' = (random_pos s + 2)%nat /\
        angle r' = heading_at s (random_pos s + 1)
    | true, false | false, true =>
        random_pos s' = (random_pos s + 1)%nat /\
        angle r' = heading_at s (random_pos s)
    | false, false =>
        random_pos s' = random_pos s /\ angle r' = angle r
    end.
Proof.
  rewrite move_eq. do 2 eexists. split; [reflexivity|].
  split; [reflexivity|].
  unfold moved, after_move, heading_draws. cbn [angle random_pos].
  destruct (hits (arena_size r) (new_x_of r (normal_at s)));
    destruct (hits (arena_size r) (new_y_of r (normal_at s)));
    split; try reflexivity; try lia; f_equal; lia.
Qed.

(** ** Construction *)

(** C9, as stated, fails: construction with arena size -1, base speed 0 and
    time step -1 is not rejected; it returns a robot placed at (-1/2, -1/2)
    that can be stepped. *)
Lemma nonpositive_construction_is_accepted :
  exists r s' r' s'',
    __init__ (-1) 0 (-1) zero_source = (Returned r, s') /\
    arena_size r = -1 /\ speed r = 0 /\ dt r = -1 /\
    get_position r = (-1 / 2, -1 / 2) /\
    move r s' = (Returned r', s'') /\
    (forall e s0, __init__ (-1) 0 (-1) zero_source <> (Raised e, s0)).
Proof.
  rewrite init_eq. do 2 eexists. rewrite move_eq. do 2 eexists.
  repeat split; try reflexivity. intros e s0 H. discriminate H.
Qed.

(** C9, amended.  Construction checks nothing: for all values of the arena
    size, the base speed and the time step, positive or not, it returns a
    robot holding these values, placed at (arena size / 2, arena size / 2),
    and every run of steps from that robot returns as well. *)
Theorem construction_never_rejects
        (arena speed0 dt0 : R) (s : RandomSource) :
  exists r s',
    __init__ arena speed0 dt0 s = (Returned r, s') /\
    arena_size r = arena /\ speed r = speed0 /\ dt r = dt0 /\
    get_position r = (arena / 2, arena / 2) /\
    forall k, exists r' s'', moves k r s' = (Returned r', s'').
Proof.
  rewrite init_eq. do 2 eexists. repeat split; try reflexivity.
  intros k. rewrite moves_eq. do 2 eexists. reflexivity.
Qed.

(** ** The collisions statistic and the arena size *)

(** C3, as stated, fails: construction accepts a negative arena size, and
    the robot built with arena size -2 records the position (-1, -1); the
    at-or-beyond test of [get_stats] holds there, so [collisions] is 1,
    while neither coordinate equals 0 or -2, so no recorded position touches
    the boundary in the exact sense. *)
Lemma negative_arena_counts_differ :
  exists r s' st,
    __init__ (-2) 0.1 0.1 zero_source = (Returned r, s') /\
    position_history r = [(-2 / 2, -2 / 2)] /\
    get_stats r = Returned st /\
    collisions st = 1%nat /\
    boundary_touching_count r = 0%nat /\
    collisions st <> boundary_touching_count r.
Proof.
  rewrite init_eq. do 3 eexists. split; [reflexivity|].
  split; [reflexivity|].
  rewrite (get_stats_eq (constructed (-2) 0.1 0.1 zero_source) eq_refl).
  split; [reflexivity|].
  assert (Hc : collisions
                 {| total_distance :=
                      path_length
                        (position_history
                           (constructed (-2) 0.1 0.1 zero_source));
                    avg_speed :=
                      np_mean
                        (speed_history
                           (constructed (-2) 0.1 0.1 zero_source));
                    collisions :=
                      length
                        (filter
                           (outside
                              (arena_size
                                 (constructed (-2) 0.1 0.1 zero_source)))
                           (position_history
                              (constructed (-2) 0.1 0.1 zero_source))) |}
               = 1%nat).
  { unfold position_history.
    cbn [collisions constructed arena_size x_history y_history combine
         filter].
    replace (outside (-2) (-2 / 2, -2 / 2)) with true; [reflexivity|].
    symmetry. unfold outside. cbn [fst snd]. rewrite !orb_true_iff.
    do 3 left. apply Rle_b_true. lra. }
  assert (Hb : boundary_touching_count
                 (constructed (-2) 0.1 0.1 zero_source) = 0%nat).
  { unfold boundary_touching_count, position_history.
    cbn [constructed arena_size x_history y_history combine filter].
    replace (touches_boundary (-2) (-2 / 2, -2 / 2)) with false;
      [reflexivity|].
    symmetry. unfold touches_boundary. cbn [fst snd].
    rewrite !orb_false_iff. unfold Req_b.
    repeat split; destruct (Req_dec_T _ _); try reflexivity; lra. }
  split; [exact Hc|]. split; [exact Hb|]. rewrite Hc, Hb. discriminate.
Qed.

(** A run that reaches a wall: built in an arena of size 1 with base speed
    1 and time step 1 on draws that are all 0, the first step has candidate
    (1.5, 0.5) and commits (1, 0.5), on the right edge. *)
Lemma wall_run_collides :
  exists r s' st,
    drive 1 1 1 1 zero_source = (Returned r, s') /\
    get_position r = (1, 1 / 2) /\
    get_stats r = Returned st /\
    collisions st = 1%nat.
Proof.
  rewrite drive_eq. do 3 eexists. split; [reflexivity|].
  unfold driven. cbn [moved_n fst].
  set (r0 := constructed 1 1 1 zero_source).
  set (s1 := after_init zero_source).
  assert (Ha : angle r0 = 0).
  { cbn [r0 constructed angle]. unfold heading_at. cbn. lra. }
  assert (Hv : current_speed_of r0 (normal_at s1) = 1)
    by (apply unit_speed; reflexivity).
  assert (Hx : new_x_of r0 (normal_at s1) = 1.5).
  { unfold new_x_of. rewrite Hv, Ha, cos_0. cbn [r0 constructed x dt]. lra. }
  assert (Hy : new_y_of r0 (normal_at s1) = 1 / 2).
  { unfold new_y_of. rewrite Hv, Ha, sin_0. cbn [r0 constructed y dt]. lra. }
  assert (Hhx : hits (arena_size r0) (new_x_of r0 (normal_at s1)) = true).
  { apply hits_true. rewrite Hx. cbn [r0 constructed arena_size]. lra. }
  assert (Hpx : x (moved r0 s1) = 1).
  { unfold moved. cbn [x]. rewrite Hhx, Hx. cbn [orb r0 constructed
      arena_size]. apply np_clip_above; lra. }
  assert (Hpy : y (moved r0 s1) = 1 / 2).
  { unfold moved. cbn [y]. rewrite Hhx, Hy. cbn [orb r0 constructed
      arena_size]. apply np_clip_inside; lra. }
  assert (Hxy : length (x_history (moved r0 s1))
                = length (y_history (moved r0 s1))) by reflexivity.
  split; [unfold get_position; now rewrite Hpx, Hpy|].
  rewrite (get_stats_eq _ Hxy). split; [reflexivity|]. cbn [collisions].
  fold r0 s1.
  rewrite (position_history_moved r0 s1 eq_refl), Hpx, Hpy.
  change (arena_size (moved r0 s1)) with 1.
  unfold position_history.
  cbn [r0 constructed x_history y_history combine app filter].
  replace (outside 1 (1 / 2, 1 / 2)) with false.
  - replace (outside 1 (1, 1 / 2)) with true; [reflexivity|].
    symmetry. unfold outside. cbn [fst snd]. rewrite !orb_true_iff.
    left. left. right. apply Rge_b_true. lra.
  - symmetry. unfold outside. cbn [fst snd].
    rewrite !orb_false_iff, !Rle_b_false, !Rge_b_false. lra.
Qed.

Lemma collisions_counts_boundary_touching_witness :
  0 <= 1 /\
  exists r s' st,
    drive 1 1 1 1 zero_source = (Returned r, s') /\
    get_stats r = Returned st /\
    collisions st = boundary_touching_count r /\
    collisions st = 1%nat.
Proof.
  split; [lra|].
  destruct (collisions_counts_boundary_touching 1 1 1 1 zero_source)
    as (r & s' & st & Hd & Hg & Hc); [lra|].
  destruct wall_run_collides as (r2 & s2 & st2 & Hd2 & _ & Hg2 & Hc2).
  rewrite Hd in Hd2. injection Hd2 as <- <-.
  rewrite Hg in Hg2. injection Hg2 as <-.
  exists r, s', st. repeat split; assumption.
Defined.

(** * Further properties of the code *)

(** ** Runs and the random source *)

Section RunInvariants.

Variable Q : BrownianRobot -> RandomSource -> Prop.
Hypothesis Q_moved : forall r s, Q r s -> Q (moved r s) (after_move r s).

Lemma moved_n_invariant2 (k : nat) :
  forall r s, Q r s -> Q (fst (moved_n k r s)) (snd (moved_n k r s)).
Proof.
  induction k as [|k IH]; intros r s Hq; cbn [moved_n].
  - exact Hq.
  - apply IH, Q_moved, Hq.
Qed.

End RunInvariants.

Lemma moved_n_add (j k : nat) :
  forall r s,
    moved_n (j + k) r s
    = moved_n k (fst (moved_n j r s)) (snd (moved_n j r s)).
Proof.
  induction j as [|j IH]; intros r s; cbn [Nat.add moved_n].
  - reflexivity.
  - apply IH.
Qed.

Lemma moved_n_S (k : nat) (r : BrownianRobot) (s : RandomSource) :
  moved_n (S k) r s
  = (moved (fst (moved_n k r s)) (snd (moved_n k r s)),
     after_move (fst (moved_n k r s)) (snd (moved_n k r s))).
Proof.
  replace (S k) with (k + 1)%nat by lia. rewrite moved_n_add. reflexivity.
Qed.

Lemma heading_draws_le (r : BrownianRobot) (n : R) :
  (heading_draws r n <= 2)%nat.
Proof.
  unfold heading_draws.
  destruct (hits _ (new_x_of r n)); destruct (hits _ (new_y_of r n));
    cbn; lia.
Qed.

Lemma moved_n_source (k : nat) :
  forall r s,
    random_draws (snd (moved_n k r s)) = random_draws s /\
    normal_draws (snd (moved_n k r s)) = normal_draws s /\
    normal_pos (snd (moved_n k r s)) = (normal_pos s + k)%nat /\
    (random_pos s <= random_pos (snd (moved_n k r s))
     <= random_pos s + 2 * k)%nat.
Proof.
  induction k as [|k IH]; intros r s; cbn [moved_n snd].
  - repeat split; lia.
  - destruct (IH (moved r s) (after_move r s)) as (Hd & Hn & Hp & Hr).
    set (s' := snd (moved_n k (moved r s) (after_move r s))) in *.
    unfold after_move in Hd, Hn, Hp, Hr.
    cbn [random_draws normal_draws normal_pos random_pos] in Hd, Hn, Hp, Hr.
    pose proof (heading_draws_le r (normal_at s)).
    repeat split; try assumption; lia.
Qed.

(** X1.  A run of [k] steps after construction consumes exactly [k] normal
    draws, and between 1 and [1 + 2 k] uniform draws (one at construction,
    at most two per step); it reads the two streams of draws and never
    changes them. *)
Theorem run_consumes_draws
        (arena speed0 dt0 : R) (k : nat) (s : RandomSource) :
  exists r s',
    drive arena speed0 dt0 k s = (Returned r, s') /\
    random_draws s' = random_draws s /\
    normal_draws s' = normal_draws s /\
    normal_pos s' = (normal_pos s + k)%nat /\
    (random_pos s + 1 <= random_pos s' <= random_pos s + 1 + 2 * k)%nat.
Proof.
  rewrite drive_eq. do 2 eexists. split; [reflexivity|].
  unfold driven.
  destruct (moved_n_source k (constructed arena speed0 dt0 s) (after_init s))
    as (Hd & Hn & Hp & Hr).
  set (s' := snd (moved_n k _ _)) in *.
  cbn [after_init random_draws normal_draws normal_pos random_pos]
    in Hd, Hn, Hp, Hr.
  repeat split; try assumption; lia.
Qed.

(** X2.  When [random.random()] stays in [0, 1), the heading is in
    [0, 2 pi) after construction and after every step of a run. *)
Theorem heading_stays_in_range
        (arena speed0 dt0 : R) (k : nat) (s : RandomSource) :
  unit_draws s ->
  exists r s',
    drive arena speed0 dt0 k s = (Returned r, s') /\
    0 <= angle r < 2 * PI.
Proof.
  intros Hu. rewrite drive_eq. do 2 eexists. split; [reflexivity|].
  unfold driven.
  apply (moved_n_invariant2
           (fun r s0 => unit_draws s0 /\ 0 <= angle r < 2 * PI)).
  - intros r s0 [Hu0 Ha]. split; [exact Hu0|].
    unfold moved. cbn [angle].
    destruct (hits _ (new_y_of r _)); [now apply heading_at_range|].
    destruct (hits _ (new_x_of r _)); [now apply heading_at_range|].
    exact Ha.
  - split; [exact Hu|]. cbn [constructed angle]. now apply heading_at_range.
Qed.

Lemma heading_stays_in_range_witness :
  unit_draws zero_source /\
  exists r s',
    drive 10 0.1 0.1 3 zero_source = (Returned r, s') /\
    0 <= angle r < 2 * PI.
Proof.
  split; [exact unit_draws_zero_source|].
  apply (heading_stays_in_range 10 0.1 0.1 3 zero_source).
  exact unit_draws_zero_source.
Defined.

(** ** Histories along a run *)

Lemma moved_n_extends (k : nat) :
  forall r s,
    exists xs ys vs,
      x_history (fst (moved_n k r s)) = x_history r ++ xs /\
      y_history (fst (moved_n k r s)) = y_history r ++ ys /\
      speed_history (fst (moved_n k r s)) = speed_history r ++ vs /\
      length xs = k /\ length ys = k /\ length vs = k /\
      arena_size (fst (moved_n k r s)) = arena_size r /\
      speed (fst (moved_n k r s)) = speed r /\
      dt (fst (moved_n k r s)) = dt r.
Proof.
  induction k as [|k IH]; intros r s; cbn [moved_n fst].
  - exists [], [], []. rewrite !app_nil_r. repeat split; reflexivity.
  - destruct (IH (moved r s) (after_move r s))
      as (xs & ys & vs & Hx & Hy & Hv & Lx & Ly & Lv & Ha & Hs & Hd).
    unfold moved at 2 in Hx. unfold moved at 2 in Hy. unfold moved at 2 in Hv.
    cbn [x_history y_history speed_history] in Hx, Hy, Hv.
    rewrite <- app_assoc in Hx, Hy, Hv.
    eexists _, _, _. split; [exact Hx|]. split; [exact Hy|].
    split; [exact Hv|]. cbn [app length].
    repeat split; try (f_equal; assumption); assumption.
Qed.

(** X3.  Runs compose, and a longer run only appends: stepping [j] times and
    then [k] times is stepping [j + k] times; the three histories of the
    longer run are those of the shorter one followed by [k] more entries,
    and the arena size, base speed and time step are the same at the end as
    at the start. *)
Theorem runs_compose_and_append
        (j k : nat) (r : BrownianRobot) (s : RandomSource) :
  exists r1 s1 r2 s2 xs ys vs,
    moves j r s = (Returned r1, s1) /\
    moves k r1 s1 = (Returned r2, s2) /\
    moves (j + k) r s = (Returned r2, s2) /\
    x_history r2 = x_history r1 ++ xs /\
    y_history r2 = y_history r1 ++ ys /\
    speed_history r2 = speed_history r1 ++ vs /\
    length xs = k /\ length ys = k /\ length vs = k /\
    arena_size r2 = arena_size r /\ speed r2 = speed r /\ dt r2 = dt r.
Proof.
  rewrite !moves_eq.
  set (r1 := fst (moved_n j r s)). set (s1 := snd (moved_n j r s)).
  destruct (moved_n_extends k r1 s1)
    as (xs & ys & vs & Hx & Hy & Hv & Lx & Ly & Lv & Ha & Hs & Hd).
  destruct (moved_n_extends j r s)
    as (_ & _ & _ & _ & _ & _ & _ & _ & _ & Ha1 & Hs1 & Hd1).
  exists r1, s1, (fst (moved_n k r1 s1)), (snd (moved_n k r1 s1)), xs, ys, vs.
  split; [reflexivity|]. rewrite moves_eq. split; [reflexivity|].
  rewrite moved_n_add. fold r1 s1. split; [reflexivity|].
  fold r1 in Ha1, Hs1, Hd1.
  repeat split; try assumption; congruence.
Qed.

Lemma consistent_constructed (arena speed0 dt0 : R) (s : RandomSource) :
  consistent (constructed arena speed0 dt0 s).
Proof. repeat split. discriminate. Qed.

Lemma consistent_moved (r : BrownianRobot) (s : RandomSource) :
  consistent r -> consistent (moved r s).
Proof.
  intros (Ha & Hne & Hx & Hy). split; [now apply aligned_moved|].
  unfold moved. cbn [x_history y_history x y].
  split; [intros H; now apply app_eq_nil in H|].
  split; apply last_last.
Qed.

Lemma consistent_driven (arena speed0 dt0 : R) (k : nat) (s : RandomSource) :
  consistent (fst (driven arena speed0 dt0 k s)).
Proof.
  apply driven_invariant.
  - intros r s0. apply consistent_moved.
  - apply consistent_constructed.
Qed.

Lemma consistent_positions (r : BrownianRobot) :
  consistent r ->
  exists ps,
    position_history r = ps ++ [get_position r] /\
    S (length ps) = length (x_history r).
Proof.
  intros ((Hxy & _) & Hne & Hx & Hy).
  assert (Hney : y_history r <> []).
  { intros H. rewrite H in Hxy. destruct (x_history r); [easy|discriminate]. }
  destruct (exists_last Hne) as (xs & a & Ex).
  destruct (exists_last Hney) as (ys & b & Ey).
  rewrite Ex, last_last in Hx. rewrite Ey, last_last in Hy.
  rewrite Ex, Ey, !length_app in Hxy. cbn [length] in Hxy.
  exists (combine xs ys). unfold position_history, get_position.
  rewrite Ex, Ey, <- Hx, <- Hy. split.
  - apply combine_snoc. lia.
  - rewrite length_combine, length_app. cbn [length]. lia.
Qed.

(** X4.  After any run, [get_position] is the last entry of the position
    history, and the first entry is still the arena center, where the robot
    was built. *)
Theorem recorded_positions_start_and_end
        (arena speed0 dt0 : R) (k : nat) (s : RandomSource) :
  exists r s' ps,
    drive arena speed0 dt0 k s = (Returned r, s') /\
    position_history r = ps ++ [get_position r] /\
    length ps = k /\
    nth 0 (position_history r) (0, 0) = (arena / 2, arena / 2).
Proof.
  rewrite drive_eq.
  destruct (consistent_positions _ (consistent_driven arena speed0 dt0 k s))
    as (ps & Hps & Hlen).
  exists (fst (driven arena speed0 dt0 k s)),
         (snd (driven arena speed0 dt0 k s)), ps.
  split; [reflexivity|]. split; [exact Hps|].
  unfold driven in *.
  destruct (moved_n_extends k (constructed arena speed0 dt0 s) (after_init s))
    as (xs & ys & vs & Hx & Hy & _ & Lx & Ly & _).
  split.
  - rewrite length_moved_n in Hlen. cbn [constructed x_history length] in Hlen.
    lia.
  - unfold position_history. rewrite Hx, Hy. reflexivity.
Qed.

(** ** The length of a step *)

Lemma path_length_snoc (ps : list (R * R)) (p q : R * R) :
  path_length ((ps ++ [p]) ++ [q])
  = path_length (ps ++ [p]) + euclidean_distance p q.
Proof.
  induction ps as [|a ps IH].
  - cbn. lra.
  - destruct ps as [|b ps].
    + cbn. lra.
    + change (path_length (((a :: b :: ps) ++ [p]) ++ [q]))
        with (euclidean_distance a b
              + path_length (((b :: ps) ++ [p]) ++ [q])).
      change (path_length ((a :: b :: ps) ++ [p]))
        with (euclidean_distance a b + path_length ((b :: ps) ++ [p])).
      rewrite IH. lra.
Qed.

Lemma euclidean_distance_nonneg (p q : R * R) : 0 <= euclidean_distance p q.
Proof. apply sqrt_pos. Qed.










(** ** Total distance along a run *)



Lemma path_length_moved (r : BrownianRobot) (s : RandomSource) :
  consistent r ->
  path_length (position_history (moved r s))
  = path_length (position_history r)
    + euclidean_distance (get_position r) (get_position (moved r s)).
Proof.
  intros Hc. destruct (consistent_positions r Hc) as (ps & Hps & _).
  destruct Hc as ((Hxy & _) & _).
  rewrite (position_history_moved r s Hxy), Hps. apply path_length_snoc.
Qed.

(** X6.  In a state whose current position is its last recorded one, a step
    adds to [total_distance] exactly the distance between the position
    before and the position after the step; the statistic never decreases. *)
Theorem total_distance_grows_by_segment
        (r : BrownianRobot) (s : RandomSource) :
  consistent r ->
  exists r' s' st st',
    move r s = (Returned r', s') /\
    get_stats r = Returned st /\
    get_stats r' = Returned st' /\
    total_distance st'
    = total_distance st
      + euclidean_distance (get_position r) (get_position r') /\
    total_distance st <= total_distance st'.
Proof.
  intros Hc. pose proof (consistent_moved r s Hc) as Hc'.
  rewrite move_eq. do 4 eexists. split; [reflexivity|].
  destruct Hc as ((Hxy & Hs) & Hrest). destruct Hc' as ((Hxy' & _) & _).
  rewrite (get_stats_eq r Hxy), (get_stats_eq _ Hxy').
  split; [reflexivity|]. split; [reflexivity|]. cbn [total_distance].
  rewrite (path_length_moved r s (conj (conj Hxy Hs) Hrest)).
  split; [reflexivity|].
  pose proof (euclidean_distance_nonneg (get_position r)
                                        (get_position (moved r s))).
  lra.
Qed.

Lemma consistent_edge_robot : consistent edge_robot.
Proof. repeat split. discriminate. Qed.

Lemma total_distance_grows_by_segment_witness :
  exists r' s' st st',
    move edge_robot zero_source = (Returned r', s') /\
    get_stats edge_robot = Returned st /\
    get_stats r' = Returned st' /\
    total_distance st'
    = total_distance st
      + euclidean_distance (get_position edge_robot) (get_position r') /\
    total_distance st <= total_distance st'.
Proof.
  apply (total_distance_grows_by_segment edge_robot zero_source).
  exact consistent_edge_robot.
Defined.

Lemma run_state (arena speed0 dt0 : R) (k : nat) (s : RandomSource) :
  0 <= arena ->
  consistent (fst (driven arena speed0 dt0 k s)) /\
  contained (fst (driven arena speed0 dt0 k s)) /\
  arena_size (fst (driven arena speed0 dt0 k s)) = arena /\
  speed (fst (driven arena speed0 dt0 k s)) = speed0 /\
  dt (fst (driven arena speed0 dt0 k s)) = dt0.
Proof.
  intros Ha. split; [apply consistent_driven|].
  destruct (contained_driven arena speed0 dt0 k s Ha) as [Hsize Hc].
  split; [exact Hc|]. split; [exact Hsize|].
  unfold driven.
  destruct (moved_n_extends k (constructed arena speed0 dt0 s) (after_init s))
    as (_ & _ & _ & _ & _ & _ & _ & _ & _ & _ & Hs & Hd).
  split; assumption.
Qed.




(** ** Collisions and the collisions statistic *)

Lemma np_clip_below (v hi : R) : 0 <= hi -> v <= 0 -> np_clip v 0 hi = 0.
Proof.
  intros Hhi Hv. unfold np_clip, Rmin, Rmax.
  destruct (Rle_dec v 0); destruct (Rle_dec _ hi); lra.
Qed.

Lemma np_clip_on_edge (arena v : R) :
  0 <= arena -> hits arena v = true ->
  np_clip v 0 arena = 0 \/ np_clip v 0 arena = arena.
Proof.
  intros Ha Hh. apply hits_true in Hh. destruct Hh as [Hlo | Hhi].
  - left. now apply np_clip_below.
  - right. now apply np_clip_above.
Qed.

(** The committed position is at or beyond an edge exactly on a collision. *)
Lemma outside_committed (r : BrownianRobot) (s : RandomSource) :
  0 <= arena_size r ->
  outside (arena_size r) (get_position (moved r s)) = collided r (normal_at s).
Proof.
  intros Ha. unfold collided, get_position, moved, outside.
  cbn [x y fst snd].
  destruct (hits (arena_size r) (new_x_of r (normal_at s))) eqn:Ex;
    destruct (hits (arena_size r) (new_y_of r (normal_at s))) eqn:Ey;
    cbn [orb].
  - destruct (np_clip_on_edge _ _ Ha Ex) as [-> | ->];
      rewrite !orb_true_iff, !Rle_b_true, !Rge_b_true; lra.
  - destruct (np_clip_on_edge _ _ Ha Ex) as [-> | ->];
      rewrite !orb_true_iff, !Rle_b_true, !Rge_b_true; lra.
  - destruct (np_clip_on_edge _ _ Ha Ey) as [-> | ->];
      rewrite !orb_true_iff, !Rle_b_true, !Rge_b_true; lra.
  - apply hits_false in Ex. apply hits_false in Ey.
    rewrite !orb_false_iff, !Rle_b_false, !Rge_b_false. lra.
Qed.

Lemma outside_count_moved (r : BrownianRobot) (s : RandomSource) :
  0 <= arena_size r ->
  length (x_history r) = length (y_history r) ->
  length (filter (outside (arena_size r)) (position_history (moved r s)))
  = (length (filter (outside (arena_size r)) (position_history r))
     + (if collided r (normal_at s) then 1 else 0))%nat.
Proof.
  intros Ha Hxy. rewrite (position_history_moved r s Hxy).
  rewrite filter_app, length_app. f_equal. cbn [filter].
  change (x (moved r s), y (moved r s)) with (get_position (moved r s)).
  rewrite (outside_committed r s Ha).
  destruct (collided r (normal_at s)); reflexivity.
Qed.

(** X8.  In an arena (size not negative), on aligned histories, a step whose
    candidate collides raises the [collisions] statistic by exactly one and
    a step whose candidate does not collide leaves it unchanged: the
    statistic counts collision steps. *)
Theorem collisions_grow_with_collision_steps
        (r : BrownianRobot) (s : RandomSource) :
  0 <= arena_size r ->
  length (x_history r) = length (y_history r) ->
  exists r' s' st st',
    move r s = (Returned r', s') /\
    get_stats r = Returned st /\
    get_stats r' = Returned st' /\
    collisions st'
    = (collisions st + (if collided r (normal_at s) then 1 else 0))%nat.
Proof.
  intros Ha Hxy.
  assert (Hxy' : length (x_history (moved r s))
                 = length (y_history (moved r s))).
  { unfold moved. cbn [x_history y_history]. rewrite !length_app, Hxy.
    reflexivity. }
  rewrite move_eq. do 4 eexists. split; [reflexivity|].
  rewrite (get_stats_eq r Hxy), (get_stats_eq _ Hxy').
  split; [reflexivity|]. split; [reflexivity|]. cbn [collisions].
  change (arena_size (moved r s)) with (arena_size r).
  now apply outside_count_moved.
Qed.

Lemma collisions_grow_with_collision_steps_witness :
  exists r' s' st st',
    move edge_robot zero_source = (Returned r', s') /\
    get_stats edge_robot = Returned st /\
    get_stats r' = Returned st' /\
    collisions st'
    = (collisions st
       + (if collided edge_robot (normal_at zero_source) then 1 else 0))%nat.
Proof.
  apply (collisions_grow_with_collision_steps edge_robot zero_source).
  - cbn. lra.
  - reflexivity.
Defined.

Lemma outside_count_driven (arena speed0 dt0 : R) (s : RandomSource) :
  0 < arena ->
  forall k,
    (length (filter (outside arena)
                    (position_history (fst (driven arena speed0 dt0 k s))))
     <= k)%nat.
Proof.
  intros Ha. induction k as [|k IH].
  - unfold driven, position_history.
    cbn [moved_n fst constructed x_history y_history combine filter].
    replace (outside arena (arena / 2, arena / 2)) with false; [cbn; lia|].
    symmetry. unfold outside. cbn [fst snd].
    rewrite !orb_false_iff, !Rle_b_false, !Rge_b_false. lra.
  - destruct (run_state arena speed0 dt0 k s (Rlt_le _ _ Ha))
      as (((Hxy & _) & _) & _ & Hsize & _).
    unfold driven in *. rewrite moved_n_S. cbn [fst].
    set (rk := fst (moved_n k _ _)) in *.
    set (sk := snd (moved_n k _ _)) in *.
    rewrite <- Hsize.
    rewrite (outside_count_moved rk sk) by (rewrite ?Hsize; lra || exact Hxy).
    rewrite Hsize. destruct (collided rk (normal_at sk)); lia.
Qed.

(** X9.  Built in an arena of positive size, a robot that took [k] steps
    reports at most [k] collisions: the starting position is not counted and
    each step adds at most one. *)
Theorem collisions_at_most_steps
        (arena speed0 dt0 : R) (k : nat) (s : RandomSource) :
  0 < arena ->
  exists r s' st,
    drive arena speed0 dt0 k s = (Returned r, s') /\
    get_stats r = Returned st /\
    (collisions st <= k)%nat.
Proof.
  intros Ha. rewrite drive_eq. do 3 eexists. split; [reflexivity|].
  destruct (run_state arena speed0 dt0 k s (Rlt_le _ _ Ha))
    as (((Hxy & _) & _) & _ & Hsize & _).
  rewrite (get_stats_eq _ Hxy). split; [reflexivity|].
  cbn [collisions]. rewrite Hsize. now apply outside_count_driven.
Qed.

Lemma collisions_at_most_steps_witness :
  0 < 10 /\
  exists r s' st,
    drive 10 0.1 0.1 3 zero_source = (Returned r, s') /\
    get_stats r = Returned st /\
    (collisions st <= 3)%nat.
Proof.
  split; [lra|]. apply (collisions_at_most_steps 10 0.1 0.1 3 zero_source).
  lra.
Defined.

(** ** Average speed *)





(** ** Before the wall can be reached *)

Lemma displacement_bound (c t d : R) :
  0 <= c -> -1 <= t <= 1 ->
  - (c * Rabs d) <= c * t * d <= c * Rabs d.
Proof.
  intros Hc Ht. replace (c * t * d) with (t * (c * d)) by ring.
  unfold Rabs. destruct (Rcase_abs d) as [Hd | Hd].
  - assert (He : c * d <= 0) by nra. nra.
  - assert (He : 0 <= c * d) by nra. nra.
Qed.

Lemma max_step_nonneg (r : BrownianRobot) : 0 <= max_step r.
Proof.
  unfold max_step. apply Rmult_le_pos; [|apply Rabs_pos].
  unfold Rmax. destruct (Rle_dec _ _); lra.
Qed.

(** A candidate no farther than [max_step] from a point well inside. *)
Lemma candidate_near (r : BrownianRobot) (n d : R) :
  - d <= x r - arena_size r / 2 <= d ->
  - d <= y r - arena_size r / 2 <= d ->
  - (d + max_step r) <= new_x_of r n - arena_size r / 2 <= d + max_step r /\
  - (d + max_step r) <= new_y_of r n - arena_size r / 2 <= d + max_step r.
Proof.
  intros Hx Hy.
  pose proof (current_speed_of_range r n) as Hc.
  assert (Hm : current_speed_of r n * Rabs (dt r) <= max_step r).
  { unfold max_step. apply Rmult_le_compat_r; [apply Rabs_pos|]. lra. }
  assert (Hc0 : 0 <= current_speed_of r n) by lra.
  pose proof (displacement_bound _ _ (dt r) Hc0 (COS_bound (angle r))) as Bx.
  pose proof (displacement_bound _ _ (dt r) Hc0 (SIN_bound (angle r))) as By.
  unfold new_x_of, new_y_of. lra.
Qed.

Lemma free_run (k : nat) :
  forall r s d,
    - d <= x r - arena_size r / 2 <= d ->
    - d <= y r - arena_size r / 2 <= d ->
    d + INR k * max_step r < arena_size r / 2 ->
    angle (fst (moved_n k r s)) = angle r /\
    random_pos (snd (moved_n k r s)) = random_pos s /\
    exists xs ys,
      x_history (fst (moved_n k r s)) = x_history r ++ xs /\
      y_history (fst (moved_n k r s)) = y_history r ++ ys /\
      Forall (fun v => 0 < v < arena_size r) xs /\
      Forall (fun v => 0 < v < arena_size r) ys.
Proof.
  induction k as [|k IH]; intros r s d Hx Hy Hd; cbn [moved_n fst snd].
  - split; [reflexivity|]. split; [reflexivity|].
    exists [], []. rewrite !app_nil_r. repeat split; constructor.
  - rewrite S_INR in Hd. pose proof (max_step_nonneg r) as Hm.
    assert (Hk : 0 <= INR k * max_step r)
      by (apply Rmult_le_pos; [apply pos_INR|exact Hm]).
    destruct (candidate_near r (normal_at s) d Hx Hy) as [Nx Ny].
    assert (Ex : hits (arena_size r) (new_x_of r (normal_at s)) = false)
      by (apply hits_false; lra).
    assert (Ey : hits (arena_size r) (new_y_of r (normal_at s)) = false)
      by (apply hits_false; lra).
    assert (Hxm : x (moved r s) = new_x_of r (normal_at s))
      by (unfold moved; cbn [x]; now rewrite Ex, Ey).
    assert (Hym : y (moved r s) = new_y_of r (normal_at s))
      by (unfold moved; cbn [y]; now rewrite Ex, Ey).
    assert (Ham : angle (moved r s) = angle r)
      by (unfold moved; cbn [angle]; now rewrite Ex, Ey).
    assert (Hpm : random_pos (after_move r s) = random_pos s).
    { unfold after_move, heading_draws. cbn [random_pos].
      rewrite Ex, Ey. lia. }
    destruct (IH (moved r s) (after_move r s) (d + max_step r))
      as (Ha & Hp & xs & ys & Hxs & Hys & Fx & Fy).
    + rewrite Hxm. exact Nx.
    + rewrite Hym. exact Ny.
    + change (max_step (moved r s)) with (max_step r).
      change (arena_size (moved r s)) with (arena_size r). lra.
    + split; [now rewrite Ha|]. split; [now rewrite Hp|].
      change (arena_size (moved r s)) with (arena_size r) in Fx, Fy.
      exists (x (moved r s) :: xs), (y (moved r s) :: ys).
      unfold moved at 2 in Hxs. unfold moved at 2 in Hys.
      cbn [x_history y_history] in Hxs, Hys.
      rewrite <- app_assoc in Hxs, Hys.
      split; [exact Hxs|]. split; [exact Hys|].
      split; constructor; try assumption.
      * rewrite Hxm. lra.
      * rewrite Hym. lra.
Qed.

Lemma inside_not_outside (arena : R) (xs ys : list R) :
  Forall (fun v => 0 < v < arena) xs ->
  Forall (fun v => 0 < v < arena) ys ->
  filter (outside arena) (combine xs ys) = [].
Proof.
  intros Fx. revert ys. induction Fx as [|a xs Ha Fx IH]; intros ys Fy.
  - reflexivity.
  - destruct Fy as [|b ys Hb Fy]; [reflexivity|]. cbn [combine filter].
    replace (outside arena (a, b)) with false; [now apply IH|].
    symmetry. unfold outside. cbn [fst snd].
    rewrite !orb_false_iff, !Rle_b_false, !Rge_b_false. lra.
Qed.

(** X11.  As long as [k] times the longest possible step,
    max(0.05, 2 * base speed) * |dt|, is less than half the arena size, a
    run of [k] steps never collides: every recorded position is strictly
    inside the arena, the heading is still the one drawn at construction, no
    further heading was drawn, and [collisions] is 0. *)
Theorem no_collision_while_wall_out_of_reach
        (arena speed0 dt0 : R) (k : nat) (s : RandomSource) :
  INR k * (Rmax 0.05 (speed0 * 2) * Rabs dt0) < arena / 2 ->
  exists r s' st,
    drive arena speed0 dt0 k s = (Returned r, s') /\
    angle r = heading_at s (random_pos s) /\
    random_pos s' = S (random_pos s) /\
    Forall (fun v => 0 < v < arena) (x_history r) /\
    Forall (fun v => 0 < v < arena) (y_history r) /\
    get_stats r = Returned st /\
    collisions st = 0%nat.
Proof.
  intros Hk. rewrite drive_eq. do 3 eexists. split; [reflexivity|].
  destruct (aligned_driven arena speed0 dt0 k s) as [Hxy _].
  rewrite (get_stats_eq _ Hxy).
  assert (Hpos : 0 < arena / 2).
  { apply Rle_lt_trans with (2 := Hk).
    apply Rmult_le_pos; [apply pos_INR|].
    apply (max_step_nonneg (constructed arena speed0 dt0 s)). }
  destruct (moved_n_extends k (constructed arena speed0 dt0 s) (after_init s))
    as (_ & _ & _ & _ & _ & _ & _ & _ & _ & Hsize & _).
  unfold driven in *.
  destruct (free_run k (constructed arena speed0 dt0 s) (after_init s) 0)
    as (Ha & Hp & xs & ys & Hxs & Hys & Fx & Fy).
  { cbn [constructed x arena_size]. lra. }
  { cbn [constructed y arena_size]. lra. }
  { unfold max_step. cbn [constructed arena_size speed dt]. lra. }
  cbn [constructed arena_size x_history y_history app] in Hxs, Hys, Fx, Fy.
  assert (Ax : Forall (fun v => 0 < v < arena)
                      (x_history (fst (moved_n k (constructed arena speed0
                                                   dt0 s) (after_init s))))).
  { rewrite Hxs. constructor; [lra|exact Fx]. }
  assert (Ay : Forall (fun v => 0 < v < arena)
                      (y_history (fst (moved_n k (constructed arena speed0
                                                   dt0 s) (after_init s))))).
  { rewrite Hys. constructor; [lra|exact Fy]. }
  split; [exact Ha|]. split; [exact Hp|].
  split; [exact Ax|]. split; [exact Ay|]. split; [reflexivity|].
  cbn [collisions]. rewrite Hsize. cbn [constructed arena_size].
  unfold position_history. now rewrite inside_not_outside.
Qed.

Lemma default_run_is_short :
  INR 249 * (Rmax 0.05 (0.1 * 2) * Rabs 0.1) < 10 / 2.
Proof.
  rewrite INR_IZR_INZ. cbn [Z.of_nat Pos.of_succ_nat Pos.succ].
  unfold Rmax, Rabs. destruct (Rle_dec _ _); destruct (Rcase_abs _); lra.
Qed.

Lemma no_collision_while_wall_out_of_reach_witness :
  exists r s' st,
    drive 10 0.1 0.1 249 zero_source = (Returned r, s') /\
    angle r = heading_at zero_source (random_pos zero_source) /\
    random_pos s' = S (random_pos zero_source) /\
    Forall (fun v => 0 < v < 10) (x_history r) /\
    Forall (fun v => 0 < v < 10) (y_history r) /\
    get_stats r = Returned st /\
    collisions st = 0%nat.
Proof.
  apply (no_collision_while_wall_out_of_reach 10 0.1 0.1 249 zero_source).
  exact default_run_is_short.
Defined.

(** ** A degenerate arena *)

Lemma hits_degenerate (arena v : R) : arena <= 0 -> hits arena v = true.
Proof.
  intros Ha. apply hits_true. destruct (Rle_dec v 0); [now left|right; lra].
Qed.

Lemma np_clip_degenerate (arena v : R) :
  arena <= 0 -> np_clip v 0 arena = arena.
Proof.
  intros Ha. unfold np_clip, Rmin, Rmax.
  destruct (Rle_dec v 0); destruct (Rle_dec _ arena); lra.
Qed.

(** X12.  With an arena size that is zero or negative, which construction
    does not refuse, every step collides on both axes: it draws two headings
    and leaves the robot at (arena size, arena size), wherever it was. *)
Theorem degenerate_arena_pins_robot (r : BrownianRobot) (s : RandomSource) :
  arena_size r <= 0 ->
  exists r' s',
    move r s = (Returned r', s') /\
    hits (arena_size r) (new_x_of r (normal_at s)) = true /\
    hits (arena_size r) (new_y_of r (normal_at s)) = true /\
    get_position r' = (arena_size r, arena_size r) /\
    random_pos s' = (random_pos s + 2)%nat /\
    angle r' = heading_at s (random_pos s + 1).
Proof.
  intros Ha. rewrite move_eq. do 2 eexists. split; [reflexivity|].
  pose proof (hits_degenerate _ (new_x_of r (normal_at s)) Ha) as Ex.
  pose proof (hits_degenerate _ (new_y_of r (normal_at s)) Ha) as Ey.
  split; [exact Ex|]. split; [exact Ey|].
  unfold get_position, moved, after_move, heading_draws.
  cbn [x y angle random_pos]. rewrite Ex, Ey. cbn [orb].
  rewrite !np_clip_degenerate by exact Ha.
  repeat split; lia.
Qed.

Lemma degenerate_arena_pins_robot_witness :
  exists r' s',
    move pinned_robot zero_source = (Returned r', s') /\
    hits (arena_size pinned_robot)
         (new_x_of pinned_robot (normal_at zero_source)) = true /\
    hits (arena_size pinned_robot)
         (new_y_of pinned_robot (normal_at zero_source)) = true /\
    get_position r' = (arena_size pinned_robot, arena_size pinned_robot) /\
    random_pos s' = (random_pos zero_source + 2)%nat /\
    angle r' = heading_at zero_source (random_pos zero_source + 1).
Proof.
  apply (degenerate_arena_pins_robot pinned_robot zero_source). cbn. lra.
Defined.

(** ** Histories that are not aligned *)

Lemma index_out_of_range {A : Type} (l : list A) (i : nat) :
  (length l <= i)%nat -> index l i = Raised IndexError.
Proof.
  intros Hi. unfold index. apply nth_error_None in Hi. now rewrite Hi.
Qed.

Lemma sum_from_raises (f : nat -> outcome R) (e : exn)
      (l1 : list nat) (i : nat) (l2 : list nat) :
  (forall j, In j l1 -> exists v, f j = Returned v) ->
  f i = Raised e ->
  forall acc, sum_from acc f (l1 ++ i :: l2) = Raised e.
Proof.
  intros Hret Hi. induction l1 as [|j l1 IH]; intros acc; cbn [app sum_from].
  - rewrite Hi. reflexivity.
  - destruct (Hret j (or_introl eq_refl)) as [v Hv]. rewrite Hv.
    cbn [bind outcome_monad]. apply IH. intros j' Hj'. apply Hret. now right.
Qed.

(** X13.  [get_stats] reads [y_history] at the indices of [x_history]: on a
    state whose y history is shorter than its x history, the x history
    holding at least two entries, it raises IndexError instead of
    returning statistics.  (No run produces such a state.) *)
Theorem get_stats_raises_on_short_y_history (r : BrownianRobot) :
  (length (y_history r) < length (x_history r))%nat ->
  (2 <= length (x_history r))%nat ->
  get_stats r = Raised IndexError.
Proof.
  intros Hlt H2. unfold get_stats, py_sum, range.
  set (i := Nat.pred (length (y_history r))).
  assert (Hseq : seq 0 (length (x_history r) - 1)
                 = seq 0 i
                   ++ i :: seq (S i) (length (x_history r) - 1 - S i)).
  { replace (length (x_history r) - 1)%nat
      with (i + S (length (x_history r) - 1 - S i))%nat at 1
      by (unfold i; lia).
    rewrite seq_app. reflexivity. }
  rewrite Hseq, (sum_from_raises _ IndexError); [reflexivity| |].
  - intros j Hj. apply in_seq in Hj. unfold segment_length.
    rewrite (index_nth (x_history r) (j + 1) 0) by (unfold i in Hj; lia).
    rewrite (index_nth (x_history r) j 0) by (unfold i in Hj; lia).
    rewrite (index_nth (y_history r) (j + 1) 0) by (unfold i in Hj; lia).
    rewrite (index_nth (y_history r) j 0) by (unfold i in Hj; lia).
    eexists. reflexivity.
  - unfold segment_length.
    rewrite (index_nth (x_history r) (i + 1) 0) by (unfold i; lia).
    rewrite (index_nth (x_history r) i 0) by (unfold i; lia).
    rewrite (index_out_of_range (y_history r) (i + 1)) by (unfold i; lia).
    reflexivity.
Qed.

Lemma get_stats_raises_on_short_y_history_witness :
  get_stats lagging_robot = Raised IndexError.
Proof.
  apply (get_stats_raises_on_short_y_history lagging_robot); cbn; lia.
Defined.

(** ** Net displacement *)







(** ** Realized speeds and the plots *)

Lemma realized_speeds_moved (speed0 : R) (r : BrownianRobot)
      (s : RandomSource) (vs : list R) :
  speed r = speed0 /\
  speed_history r = speed0 :: vs /\
  Forall (fun v => 0.05 <= v <= Rmax 0.05 (speed0 * 2)) vs ->
  exists vs',
    speed (moved r s) = speed0 /\
    speed_history (moved r s) = speed0 :: vs' /\
    Forall (fun v => 0.05 <= v <= Rmax 0.05 (speed0 * 2)) vs' /\
    length vs' = S (length vs).
Proof.
  intros (Hs & Hh & Hall).
  exists (vs ++ [current_speed_of r (normal_at s)]).
  split; [exact Hs|]. unfold moved. cbn [speed_history]. rewrite Hh.
  split; [reflexivity|]. split.
  - apply Forall_app. split; [exact Hall|]. constructor; [|constructor].
    rewrite <- Hs. apply current_speed_of_range.
  - rewrite length_app. cbn [length]. lia.
Qed.

Lemma realized_speeds_driven (arena speed0 dt0 : R) (s : RandomSource) :
  forall k,
  exists vs,
    speed (fst (driven arena speed0 dt0 k s)) = speed0 /\
    speed_history (fst (driven arena speed0 dt0 k s)) = speed0 :: vs /\
    Forall (fun v => 0.05 <= v <= Rmax 0.05 (speed0 * 2)) vs /\
    length vs = k.
Proof.
  induction k as [|k (vs & Hs & Hh & Hall & Hlen)].
  - exists []. repeat split. constructor.
  - unfold driven in *. rewrite moved_n_S. cbn [fst].
    destruct (realized_speeds_moved speed0 _ (snd (moved_n k
                (constructed arena speed0 dt0 s) (after_init s))) vs
                (conj Hs (conj Hh Hall)))
      as (vs' & Hs' & Hh' & Hall' & Hlen').
    exists vs'. repeat split; try assumption. lia.
Qed.

(** X15.  Whatever the base speed, the speed history after [k] steps is the
    base speed followed by [k] realized speeds, each at least 0.05 and at
    most the larger of 0.05 and twice the base speed. *)
Theorem realized_speeds_within_floor_and_cap
        (arena speed0 dt0 : R) (k : nat) (s : RandomSource) :
  exists r s' vs,
    drive arena speed0 dt0 k s = (Returned r, s') /\
    speed_history r = speed0 :: vs /\
    length vs = k /\
    Forall (fun v => 0.05 <= v <= Rmax 0.05 (2 * speed0)) vs.
Proof.
  rewrite drive_eq.
  destruct (realized_speeds_driven arena speed0 dt0 s k)
    as (vs & _ & Hh & Hall & Hlen).
  do 2 eexists. exists vs. split; [reflexivity|].
  split; [exact Hh|]. split; [exact Hlen|].
  rewrite (Rmult_comm 2). exact Hall.
Qed.

(** X16.  With a positive arena size and a base speed of at least 0.02, the
    data [simulate_brownian_motion] plots stays within the axes it sets:
    every recorded coordinate is strictly between -0.5 and arena size + 0.5,
    and every recorded speed is above 0 and at most 2.5 times the base
    speed. *)
Theorem plots_contain_the_data
        (arena speed0 dt0 : R) (k : nat) (s : RandomSource) :
  0 < arena -> 0.02 <= speed0 ->
  exists r s',
    drive arena speed0 dt0 k s = (Returned r, s') /\
    trajectory_axis_limits r = (-0.5, arena + 0.5) /\
    speed_axis_limits r = (0, speed0 * 2.5) /\
    Forall (fun v => fst (trajectory_axis_limits r) < v
                     < snd (trajectory_axis_limits r)) (x_history r) /\
    Forall (fun v => fst (trajectory_axis_limits r) < v
                     < snd (trajectory_axis_limits r)) (y_history r) /\
    Forall (fun v => fst (speed_axis_limits r) < v
                     <= snd (speed_axis_limits r)) (speed_history r).
Proof.
  intros Ha Hs0. rewrite drive_eq. do 2 eexists. split; [reflexivity|].
  destruct (run_state arena speed0 dt0 k s (Rlt_le _ _ Ha))
    as (_ & [Cx Cy] & Hsize & Hs & _).
  destruct (realized_speeds_driven arena speed0 dt0 s k)
    as (vs & _ & Hh & Hall & _).
  unfold trajectory_axis_limits, speed_axis_limits. cbn [fst snd].
  rewrite Hsize in *. rewrite Hs, Hh.
  split; [reflexivity|]. split; [reflexivity|].
  split; [|split].
  - eapply Forall_impl; [|exact Cx]. unfold in_arena. intros v Hv. lra.
  - eapply Forall_impl; [|exact Cy]. unfold in_arena. intros v Hv. lra.
  - constructor; [lra|]. eapply Forall_impl; [|exact Hall].
    intros v Hv. cbn beta in Hv. unfold Rmax in Hv.
    destruct (Rle_dec 0.05 (speed0 * 2)); lra.
Qed.

Lemma plots_contain_the_data_witness :
  0 < 10 /\ 0.02 <= 0.1 /\
  exists r s',
    drive 10 0.1 0.1 3 zero_source = (Returned r, s') /\
    trajectory_axis_limits r = (-0.5, 10 + 0.5) /\
    speed_axis_limits r = (0, 0.1 * 2.5) /\
    Forall (fun v => fst (trajectory_axis_limits r) < v
                     < snd (trajectory_axis_limits r)) (x_history r) /\
    Forall (fun v => fst (trajectory_axis_limits r) < v
                     < snd (trajectory_axis_limits r)) (y_history r) /\
    Forall (fun v => fst (speed_axis_limits r) < v
                     <= snd (speed_axis_limits r)) (speed_history r).
Proof.
  split; [lra|]. split; [lra|].
  apply (plots_contain_the_data 10 0.1 0.1 3 zero_source); lra.
Defined.

(** ** The heading and the draws *)

Lemma heading_at_ext (s1 s2 : RandomSource) (i : nat) :
  random_draws s1 = random_draws s2 -> heading_at s1 i = heading_at s2 i.
Proof. intros H. unfold heading_at. now rewrite H. Qed.

(** X17.  At every point of a run the heading is the value of the most
    recent [random.uniform(0, 2 pi)] draw: the one made at construction
    until the first collision, the last one made by a colliding step
    afterwards. *)
Theorem heading_is_latest_draw
        (arena speed0 dt0 : R) (k : nat) (s : RandomSource) :
  exists r s',
    drive arena speed0 dt0 k s = (Returned r, s') /\
    (random_pos s < random_pos s')%nat /\
    angle r = heading_at s (random_pos s' - 1).
Proof.
  rewrite drive_eq. do 2 eexists. split; [reflexivity|].
  unfold driven.
  apply (moved_n_invariant2
           (fun r s0 => random_draws s0 = random_draws s /\
                        (random_pos s < random_pos s0)%nat /\
                        angle r = heading_at s (random_pos s0 - 1))).
  - intros r s0 (Hd & Hp & Ha).
    unfold moved, after_move, heading_draws.
    cbn [angle random_draws random_pos].
    split; [exact Hd|].
    destruct (hits _ (new_x_of r _)); destruct (hits _ (new_y_of r _));
      (split; [lia|]); rewrite ?(heading_at_ext s0 s _ Hd);
      try (f_equal; lia).
    replace (random_pos s0 + (0 + 0) - 1)%nat with (random_pos s0 - 1)%nat
      by lia.
    exact Ha.
  - cbn [after_init constructed angle random_draws random_pos].
    split; [reflexivity|]. split; [lia|]. f_equal. lia.
Qed.

(** ** Straight-line motion *)




